(** * blog-forge: the post, like, comment and listing workflow

    A shallow embedding of the data paths of the three pages of the
    application ([PostDetail.tsx], [CreatePost.tsx] and the index page with
    its posts query) together with the part of the hosted table store they
    talk to, and the properties of the written description that concern
    them.

    Conventions.
    - A JavaScript string is a list of code units.  The embedding covers the
      code units U+0000 .. U+00FF, one [ascii] per unit; [Js.toLowerCase],
      [Js.trim] and the regular expressions are the ECMAScript ones on that
      range.
    - An instant (the value of [Date.now()], of [new Date()], of a
      timestamp column) is a number of milliseconds, in [N].
    - The remote store is an in-memory record of tables.  Network failures
      are not part of the model: a store call fails only where the store's
      own rules make it fail ([single] on zero or several rows, a violated
      uniqueness constraint).
    - Values the store picks on insert (row identifier, creation instant)
      are explicit arguments of the inserting operation. *)

From Stdlib Require Import List Bool Arith NArith Lia.
From Stdlib Require Import Ascii String DecimalString DecimalPos.
From Stdlib Require Import Sorted Permutation.
From Stdlib Require DecimalN.
Import ListNotations.

Set Implicit Arguments.

(* ------------------------------------------------------------------ *)
(** ** JavaScript strings *)

Module Js.

Definition str := list ascii.

(** String literals of the source. *)
Definition lit (s : string) : str := list_ascii_of_string s.

Definition code (c : ascii) : N := N_of_ascii c.

Definition inRange (lo hi : N) (c : ascii) : bool :=
  ((lo <=? code c) && (code c <=? hi))%N.

(** WhiteSpace and LineTerminator code units below U+0100: TAB, LF, VT, FF,
    CR, SP and NBSP; these are what [String.prototype.trim] strips. *)
Definition isWhiteSpace (c : ascii) : bool :=
  inRange 9 13 c || (code c =? 32)%N || (code c =? 160)%N.

Fixpoint dropWhile (A : Type) (p : A -> bool) (l : list A) : list A :=
  match l with
  | [] => []
  | x :: l' => if p x then dropWhile p l' else l
  end.

(** Dropping at both ends. *)
Definition strip (A : Type) (p : A -> bool) (l : list A) : list A :=
  rev (dropWhile p (rev (dropWhile p l))).

Definition trimStart (s : str) : str := dropWhile isWhiteSpace s.
Definition trimEnd (s : str) : str := rev (dropWhile isWhiteSpace (rev s)).
Definition trim (s : str) : str := trimEnd (trimStart s).

(** A string that is empty or made of white space only. *)
Definition isBlank (s : str) : bool := forallb isWhiteSpace s.

(** ToBoolean on a string: only the empty string is falsy. *)
Definition truthy (s : str) : bool :=
  match s with [] => false | _ :: _ => true end.

(** [s || d] on strings. *)
Definition orElse (s d : str) : str := if truthy s then s else d.

(** Lower-case mapping of one code unit below U+0100: A-Z, and the
    capital letters U+00C0 .. U+00DE without the multiplication sign. *)
Definition lowerUnit (c : ascii) : ascii :=
  if inRange 65 90 c then ascii_of_N (code c + 32)
  else if inRange 192 222 c && negb (code c =? 215)%N
       then ascii_of_N (code c + 32)
       else c.

Definition toLowerCase (s : str) : str := map lowerUnit s.

Fixpoint eqb (a b : str) : bool :=
  match a, b with
  | [], [] => true
  | x :: a', y :: b' => Ascii.eqb x y && eqb a' b'
  | _, _ => false
  end.

Fixpoint startsWith (p s : str) : bool :=
  match p, s with
  | [], _ => true
  | x :: p', y :: s' => Ascii.eqb x y && startsWith p' s'
  | _ :: _, [] => false
  end.

(** [s.includes(needle)] on strings. *)
Fixpoint includes (s needle : str) : bool :=
  startsWith needle s
  || match s with [] => false | _ :: s' => includes s' needle end.

(** [xs.includes(x)] on an array of strings. *)
Definition arrayIncludes (xs : list str) (x : str) : bool :=
  existsb (eqb x) xs.

(** [s.substring(0, n)]. *)
Definition substring0 (n : nat) (s : str) : str := firstn n s.

(** The decimal numeral of a non-negative integer, as [`${n}`] prints it. *)
Definition decimal (n : N) : str :=
  list_ascii_of_string (NilEmpty.string_of_uint (N.to_uint n)).

Definition isDigit (c : ascii) : bool := inRange 48 57 c.

End Js.

(* ------------------------------------------------------------------ *)
(** ** The hosted table store, as the client sees it *)

Module Store.

Import Js.

(** Row identifiers and user identifiers are uuids in text form. *)
Definition Id := str.

Inductive status := draft | published.

Definition status_eqb (a b : status) : bool :=
  match a, b with
  | draft, draft | published, published => true
  | _, _ => false
  end.

Module Category.
Record t := { id : Id; name : str; slug : str }.
End Category.

Module Post.
Record t := {
  id : Id;
  user_id : Id;
  title : str;
  slug : str;
  content : str;
  excerpt : option str;
  category_id : option Id;
  tags : list str;
  featured_image_url : option str;
  status : Store.status;
  created_at : N;
  published_at : option N
}.
End Post.

Module Profile.
Record t := { user_id : Id; display_name : option str }.
End Profile.

Module Comment.
Record t := {
  id : Id;
  post_id : Id;
  user_id : Id;
  content : str;
  created_at : N
}.
End Comment.

Module Like.
Record t := { id : Id; post_id : Id; user_id : Id }.
End Like.

Record db := {
  posts : list Post.t;
  categories : list Category.t;
  profiles : list Profile.t;
  comments : list Comment.t;
  likes : list Like.t
}.

(** Errors the store answers with. [PGRST116]: a single row was asked for
    and zero or several came back. [unique_violation]: Postgres 23505. *)
Inductive pg_error := PGRST116 | unique_violation.

(** The [{ data, error }] pair every call resolves to. *)
Record response (A : Type) := { data : option A; error : option pg_error }.

Definition ok (A : Type) (a : A) : response A :=
  {| data := Some a; error := None |}.
Definition failed (A : Type) (e : pg_error) : response A :=
  {| data := None; error := Some e |}.

(** [.single()]: exactly one row, or an error and no data. *)
Definition single (A : Type) (rows : list A) : response A :=
  match rows with
  | [r] => ok r
  | _ => failed A PGRST116
  end.

(** [.eq(column, value)] on a text column. *)
Definition eq_ (A : Type) (col : A -> str) (v : str) (rows : list A) : list A :=
  filter (fun r => eqb (col r) v) rows.

(** [.in(column, values)]. *)
Definition in_ (A : Type) (col : A -> str) (vs : list str)
  (rows : list A) : list A :=
  filter (fun r => arrayIncludes vs (col r)) rows.

(** [ORDER BY key DESC]: greater keys first, NULL (which Postgres treats
    as larger than every value) before them.  [descb a b] says that [a] may
    stand before [b]. *)
Definition descb (a b : option N) : bool :=
  match a, b with
  | None, _ => true
  | Some _, None => false
  | Some x, Some y => (y <=? x)%N
  end.

(** Row [a] may stand before row [b] in [ORDER BY key DESC]. *)
Definition before (A : Type) (key : A -> option N) (a b : A) : Prop :=
  descb (key a) (key b) = true.

Fixpoint insert_desc (A : Type) (key : A -> option N) (r : A)
  (sorted : list A) : list A :=
  match sorted with
  | [] => [r]
  | r' :: rest =>
      if descb (key r) (key r') then r :: sorted
      else r' :: insert_desc key r rest
  end.

(** [.order(column, { ascending: false })]; rows with equal keys keep the
    table order. *)
Definition order_desc (A : Type) (key : A -> option N)
  (rows : list A) : list A :=
  fold_right (insert_desc key) [] rows.

(** [select('*', { count: 'exact', head: true })]. *)
Definition count (A : Type) (rows : list A) : N := N.of_nat (List.length rows).

(** *** Pattern matching of [LIKE]

    [%] matches any sequence of characters, [_] any single character, a
    backslash takes the next pattern character literally.  A pattern
    ending in a lone backslash, which Postgres refuses, matches nothing
    here; the patterns of the posts query all end in [%]. *)
Fixpoint like (pat : str) : str -> bool :=
  match pat with
  | [] => fun txt => match txt with [] => true | _ :: _ => false end
  | c :: pat' =>
      if Ascii.eqb c "%" then
        fix skip (txt : str) : bool :=
          like pat' txt
          || match txt with [] => false | _ :: txt' => skip txt' end
      else if Ascii.eqb c "_" then
        fun txt => match txt with [] => false | _ :: txt' => like pat' txt' end
      else if Ascii.eqb c "\" then
        match pat' with
        | [] => fun _ => false
        | e :: pat'' =>
            fun txt =>
              match txt with
              | [] => false
              | d :: txt' => Ascii.eqb e d && like pat'' txt'
              end
        end
      else
        fun txt =>
          match txt with
          | [] => false
          | d :: txt' => Ascii.eqb c d && like pat' txt'
          end
  end.

(** The characters that do not stand for themselves in the pattern of an
    [ilike] filter. *)
Definition isMeta (c : ascii) : bool :=
  Ascii.eqb c "%" || Ascii.eqb c "_" || Ascii.eqb c "\" || Ascii.eqb c "*".

Definition plain (s : str) : bool := forallb (fun c => negb (isMeta c)) s.

(** The [ilike] operator of a filter: in the pattern [*] stands for [%];
    the match ignores case. *)
Definition star_to_percent (c : ascii) : ascii :=
  if Ascii.eqb c "*" then "%"%char else c.

Definition ilike (pat txt : str) : bool :=
  like (toLowerCase (map star_to_percent pat)) (toLowerCase txt).

(** The embedded resource [categories (name, slug)] of a post row: the
    category its [category_id] refers to, or null. *)
Record category_ref := { name : str; slug : str }.

Definition category_of (d : db) (c : option Id) : option category_ref :=
  match c with
  | None => None
  | Some c =>
      match find (fun k => eqb (Category.id k) c) (categories d) with
      | Some k => Some {| name := Category.name k; slug := Category.slug k |}
      | None => None
      end
  end.

(** [insert([row]).select().single()] on the posts table: the store adds
    the row with the identifier and the creation instant it assigns and
    hands it back. *)
Definition insert_post (row : Post.t) (d : db) : response Post.t * db :=
  (ok row,
   {| posts := posts d ++ [row]; categories := categories d;
      profiles := profiles d; comments := comments d; likes := likes d |}).

(** The rows of the likes table for post [p] and user [u]. *)
Definition likeOf (p u : Id) (l : Like.t) : bool :=
  eqb (Like.post_id l) p && eqb (Like.user_id l) u.

Definition key (l : Like.t) : Id * Id := (Like.post_id l, Like.user_id l).

(** At most one like per post and user. *)
Definition likes_unique (d : db) : Prop := NoDup (map key (likes d)).

(** [id] is the primary key of the posts table. *)
Definition posts_keyed (d : db) : Prop := NoDup (map Post.id (posts d)).

(** [delete().eq('post_id', p).eq('user_id', u)] on the likes table. *)
Definition delete_like (p u : Id) (d : db) : db :=
  {| posts := posts d; categories := categories d; profiles := profiles d;
     comments := comments d;
     likes := filter (fun l => negb (likeOf p u l)) (likes d) |}.

(** Modelled from the spec: the uniqueness guarantee of the likes table,
    whose definition is not among the sources.  At most one row per post
    and user: the insert of a pair that is already there is rejected and
    leaves the table as it was.  [new_id] is the identifier the store gives
    the new row. *)
Definition insert_like (new_id p u : Id) (d : db) : response unit * db :=
  if existsb (likeOf p u) (likes d)
  then (failed unit unique_violation, d)
  else (ok tt,
        {| posts := posts d; categories := categories d;
           profiles := profiles d; comments := comments d;
           likes := likes d
                    ++ [{| Like.id := new_id; Like.post_id := p;
                           Like.user_id := u |}] |}).

(** [insert([{ post_id, user_id, content }])] on the comments table.
    Modelled from the spec: the store assigns the creation instant
    ([now]); it also assigns the row identifier ([new_id]). *)
Definition insert_comment (new_id : Id) (now : N) (p u : Id) (body : str)
  (d : db) : response unit * db :=
  (ok tt,
   {| posts := posts d; categories := categories d; profiles := profiles d;
      comments := comments d
                  ++ [{| Comment.id := new_id; Comment.post_id := p;
                         Comment.user_id := u; Comment.content := body;
                         Comment.created_at := now |}];
      likes := likes d |}).

(** The message of a store error, shown in notifications. *)
Definition message (e : pg_error) : str :=
  match e with
  | PGRST116 => lit "JSON object requested, multiple (or no) rows returned"
  | unique_violation => lit "duplicate key value violates unique constraint"
  end.

(** Keep the first occurrence of each element: [[...new Set(xs)]]. *)
Fixpoint distinct (xs : list str) : list str :=
  match xs with
  | [] => []
  | x :: xs' => x :: filter (fun y => negb (eqb y x)) (distinct xs')
  end.

End Store.

(* ------------------------------------------------------------------ *)
(** ** What an async function of the client settles to *)

Module Async.

Import Js.

(** What the source throws: an error handed over by the store, or
    [new Error(message)]. *)
Inductive thrown :=
| StoreError (e : Store.pg_error)
| Error (message : str).

(** [error.message] *)
Definition errorMessage (e : thrown) : str :=
  match e with
  | StoreError e => Store.message e
  | Error m => m
  end.

Inductive outcome (A : Type) :=
| Resolved (a : A)
| Rejected (e : thrown).

Arguments Rejected {A} e.

(** A query of the page as the component reads it.  [Disabled]: its
    [enabled] flag is false, it never runs and is not loading.  [Loading]:
    first fetch under way.  [Settled]: the query function has resolved, or
    has rejected and the retries are over. *)
Inductive query (A : Type) :=
| Disabled
| Loading
| Settled (r : outcome A).

Arguments Disabled {A}.
Arguments Loading {A}.

Definition data (A : Type) (q : query A) : option A :=
  match q with
  | Settled (Resolved a) => Some a
  | _ => None
  end.

Definition isLoading (A : Type) (q : query A) : bool :=
  match q with Loading => true | _ => false end.

(** Run a query function if the query is enabled. *)
Definition fetch (A : Type) (enabled : bool) (queryFn : outcome A) : query A :=
  if enabled then Settled queryFn else Disabled.

End Async.

(** The signed-in user of [useAuth]. *)
Module Auth.
Record user := { id : Store.Id }.
End Auth.

(** A notification raised with [toast]. *)
Module Toast.
Inductive kind := default | destructive.
Record t := { title : Js.str; description : option Js.str; variant : kind }.
End Toast.

(** [{ ...r, profiles: p }]: every field of [r], and the field [profiles]. *)
Module Spread.
Record withProfiles (R P : Type) := { base : R; profiles : option P }.
End Spread.

(* ------------------------------------------------------------------ *)
(** ** The post page ([PostDetail.tsx]) *)

Module PostDetail.

Import Js Store Async.

(** [!!id] for the route parameter, [!!user] for the session. *)
Definition hasId (id : option Id) : bool :=
  match id with Some i => truthy i | None => false end.

Definition hasUser (user : option Auth.user) : bool :=
  match user with Some _ => true | None => false end.

(** A row of [select(`*, categories (name, slug)`)]. *)
Record postData := { columns : Post.t; categories : option category_ref }.

Definition embed_category (d : db) (p : Post.t) : postData :=
  {| columns := p; categories := category_of d (Post.category_id p) |}.

(** A row of [select('display_name')] on profiles. *)
Record author := { display_name : option str }.

Definition post_view := Spread.withProfiles postData author.
Definition comment_view := Spread.withProfiles Comment.t Profile.t.

(** [x?.display_name || 'Anonymous'] *)
Definition nameOr (n : option (option str)) : str :=
  match n with
  | Some (Some s) => orElse s (lit "Anonymous")
  | _ => lit "Anonymous"
  end.

(** The rows the store answers the profile query of lines 38-41 with. *)
Definition authorRows (d : db) (u : Id) : list author :=
  map (fun p => {| display_name := Profile.display_name p |})
    (eq_ Profile.user_id u (Store.profiles d)).

(** Query function of [['post', id]] (lines 23-50). *)
Definition postQueryFn (d : db) (id : option Id) : outcome post_view :=
  match id with
  | None => Rejected (Error (lit "Post ID is required"))
  | Some i =>
      if negb (truthy i) then Rejected (Error (lit "Post ID is required"))
      else
        let r := single (map (embed_category d) (eq_ Post.id i (posts d))) in
        match error r, Store.data r with
        | Some e, _ => Rejected (StoreError e)
        | None, None =>
            (* [postData.user_id] on null *)
            Rejected (Error (lit "Cannot read properties of null"))
        | None, Some pd =>
            let pr := single (authorRows d (Post.user_id (columns pd))) in
            (* a profile error is only logged *)
            Resolved {| Spread.base := pd; Spread.profiles := Store.data pr |}
        end
  end.

(** The rows the store answers the comments query with (lines 59-63):
    the comments of the post, newest first. *)
Definition commentRows (d : db) (i : Id) : list Comment.t :=
  order_desc (fun c => Some (Comment.created_at c))
    (eq_ Comment.post_id i (comments d)).

(** Query function of [['comments', id]] (lines 56-85). *)
Definition commentsQueryFn (d : db) (id : option Id)
  : outcome (list comment_view) :=
  match id with
  | None => Resolved []
  | Some i =>
      if negb (truthy i) then Resolved []
      else
        let commentsData := commentRows d i in
        let userIds := distinct (map Comment.user_id commentsData) in
        if (List.length userIds =? 0)%nat then Resolved []
        else
          let profilesData := in_ Profile.user_id userIds (profiles d) in
          Resolved
            (map (fun comment =>
                    {| Spread.base := comment;
                       Spread.profiles :=
                         find (fun profile =>
                                 eqb (Profile.user_id profile)
                                     (Comment.user_id comment))
                              profilesData |})
               commentsData)
  end.

(** Query function of [['like', id, user?.id]] (lines 91-102). *)
Definition isLikedQueryFn (d : db) (id : option Id)
  (user : option Auth.user) : outcome bool :=
  match id, user with
  | Some i, Some u =>
      if negb (truthy i) then Resolved false
      else
        let r := single (map Like.id
                           (eq_ Like.user_id (Auth.id u)
                              (eq_ Like.post_id i (likes d)))) in
        Resolved (match error r with None => true | Some _ => false end
                  && match Store.data r with Some _ => true | None => false end)
  | _, _ => Resolved false
  end.

(** Query function of [['likesCount', id]] (lines 108-118). *)
Definition likesCountQueryFn (d : db) (id : option Id) : outcome N :=
  match id with
  | None => Resolved 0%N
  | Some i =>
      if negb (truthy i) then Resolved 0%N
      else Resolved (count (eq_ Like.post_id i (likes d)))
  end.

(** [likeMutation.mutationFn] (lines 123-139), with the value of [isLiked]
    the component rendered with. *)
Definition likeMutationFn (user : option Auth.user) (id : option Id)
  (isLiked : bool) (new_id : Id) (d : db) : outcome unit * db :=
  match user, id with
  | Some u, Some i =>
      if negb (truthy i) then (Rejected (Error (lit "User not authenticated")), d)
      else if isLiked then (Resolved tt, delete_like i (Auth.id u) d)
      else
        let '(r, d') := insert_like new_id i (Auth.id u) d in
        match error r with
        | Some e => (Rejected (StoreError e), d')
        | None => (Resolved tt, d')
        end
  | _, _ => (Rejected (Error (lit "User not authenticated")), d)
  end.

(** [commentMutation.mutationFn] (lines 147-155). *)
Definition commentMutationFn (user : option Auth.user) (id : option Id)
  (content : str) (new_id : Id) (now : N) (d : db) : outcome unit * db :=
  match user, id with
  | Some u, Some i =>
      if negb (truthy i) then (Rejected (Error (lit "User not authenticated")), d)
      else
        let '(r, d') := insert_comment new_id now i (Auth.id u) content d in
        match error r with
        | Some e => (Rejected (StoreError e), d')
        | None => (Resolved tt, d')
        end
  | _, _ => (Rejected (Error (lit "User not authenticated")), d)
  end.

(** The component: the store it talks to, its inputs, its local state, its
    four queries and the notifications raised so far (newest last). *)
Record page := {
  remote : db;
  id : option Id;
  user : option Auth.user;
  newComment : str;
  postQ : query post_view;
  commentsQ : query (list comment_view);
  likeQ : query bool;
  likesCountQ : query N;
  toasts : list Toast.t
}.

(** The destructuring defaults of lines 54, 89 and 106. *)
Definition comments (pg : page) : list comment_view :=
  match Async.data (commentsQ pg) with Some cs => cs | None => [] end.
Definition isLiked (pg : page) : bool :=
  match Async.data (likeQ pg) with Some b => b | None => false end.
Definition likesCount (pg : page) : N :=
  match Async.data (likesCountQ pg) with Some n => n | None => 0%N end.

Definition fetchPost (d : db) id := fetch (hasId id) (postQueryFn d id).
Definition fetchComments (d : db) id := fetch (hasId id) (commentsQueryFn d id).
Definition fetchLike (d : db) id user :=
  fetch (hasId id && hasUser user) (isLikedQueryFn d id user).
Definition fetchLikesCount (d : db) id :=
  fetch (hasId id) (likesCountQueryFn d id).

(** The page once its queries have settled against store [d]. *)
Definition mount (d : db) (id : option Id) (user : option Auth.user) : page :=
  {| remote := d; id := id; user := user; newComment := [];
     postQ := fetchPost d id;
     commentsQ := fetchComments d id;
     likeQ := fetchLike d id user;
     likesCountQ := fetchLikesCount d id;
     toasts := [] |}.

(** Whether the store holds a like of post [i] by user [u]. *)
Definition hasLike (d : db) (i u : Id) : bool := existsb (likeOf i u) (likes d).

(** The store after the like of post [i] by user [u] has been deleted if
    there was one and inserted (with identifier [n]) if there was none. *)
Definition toggledStore (d : db) (i u n : Id) : db :=
  if hasLike d i u then delete_like i u d else snd (insert_like n i u d).

(** The cached like state and like count are those of the store. *)
Definition likes_fresh (pg : page) : Prop :=
  likeQ pg = fetchLike (remote pg) (id pg) (user pg)
  /\ likesCountQ pg = fetchLikesCount (remote pg) (id pg).

(** Click on the heart (line 241): [likeMutation.mutate()] for a signed-in
    user, with [onSuccess] refetching the two invalidated queries; a
    notification otherwise.  The mutation has no [onError]. *)
Definition toggleLike (new_id : Id) (pg : page) : page :=
  match user pg with
  | Some _ =>
      let '(r, d') :=
        likeMutationFn (user pg) (id pg) (isLiked pg) new_id (remote pg) in
      match r with
      | Resolved _ =>
          {| remote := d'; id := id pg; user := user pg;
             newComment := newComment pg;
             postQ := postQ pg; commentsQ := commentsQ pg;
             likeQ := fetchLike d' (id pg) (user pg);
             likesCountQ := fetchLikesCount d' (id pg);
             toasts := toasts pg |}
      | Rejected _ =>
          {| remote := d'; id := id pg; user := user pg;
             newComment := newComment pg;
             postQ := postQ pg; commentsQ := commentsQ pg;
             likeQ := likeQ pg; likesCountQ := likesCountQ pg;
             toasts := toasts pg |}
      end
  | None =>
      {| remote := remote pg; id := id pg; user := user pg;
         newComment := newComment pg;
         postQ := postQ pg; commentsQ := commentsQ pg;
         likeQ := likeQ pg; likesCountQ := likesCountQ pg;
         toasts := toasts pg
                   ++ [{| Toast.title := lit "Please sign in to like posts";
                          Toast.description := None;
                          Toast.variant := Toast.destructive |}] |}
  end.

(** [setNewComment(e.target.value)] of the comment box (line 299). *)
Definition setNewComment (text : str) (pg : page) : page :=
  {| remote := remote pg; id := id pg; user := user pg;
     newComment := text;
     postQ := postQ pg; commentsQ := commentsQ pg;
     likeQ := likeQ pg; likesCountQ := likesCountQ pg;
     toasts := toasts pg |}.

(** Modelled from the spec: a failed operation is "surfaced as a
    notification", and a [ValidationError] with the "input retained for
    correction".  On this page: a toast of the destructive variant is
    added and the comment box keeps its text. *)
Definition notifiesError (before after : page) : Prop :=
  exists t, toasts after = toasts before ++ [t]
            /\ Toast.variant t = Toast.destructive
            /\ newComment after = newComment before.

(** [handleAddComment] (lines 173-176) with the mutation it starts and the
    mutation's [onSuccess] and [onError] (lines 156-170). *)
Definition handleAddComment (new_id : Id) (now : N) (pg : page) : page :=
  if negb (truthy (trim (newComment pg))) then pg
  else
    let '(r, d') :=
      commentMutationFn (user pg) (id pg) (trim (newComment pg))
        new_id now (remote pg) in
    match r with
    | Resolved _ =>
        {| remote := d'; id := id pg; user := user pg;
           newComment := [];
           postQ := postQ pg;
           commentsQ := fetchComments d' (id pg);
           likeQ := likeQ pg; likesCountQ := likesCountQ pg;
           toasts := toasts pg
                     ++ [{| Toast.title := lit "Comment added!";
                            Toast.description :=
                              Some (lit "Your comment has been posted successfully.");
                            Toast.variant := Toast.default |}] |}
    | Rejected e =>
        {| remote := d'; id := id pg; user := user pg;
           newComment := newComment pg;
           postQ := postQ pg; commentsQ := commentsQ pg;
           likeQ := likeQ pg; likesCountQ := likesCountQ pg;
           toasts := toasts pg
                     ++ [{| Toast.title := lit "Error";
                            Toast.description := Some (errorMessage e);
                            Toast.variant := Toast.destructive |}] |}
    end.

(** What the component returns (lines 178-350), reduced to the data it
    shows. *)
Record card := { cardAuthor : str; cardBody : str }.

Record article := {
  heading : str;
  authorName : str;
  badge : option str;
  heart : N;
  heartFilled : bool;
  commentTotal : nat;
  cards : list card
}.

Inductive screen :=
| Skeleton
| PostNotFound
| Article (a : article).

Definition commentCard (c : comment_view) : card :=
  {| cardAuthor :=
       nameOr (option_map Profile.display_name (Spread.profiles c));
     cardBody := Comment.content (Spread.base c) |}.

Definition render (pg : page) : screen :=
  if isLoading (postQ pg) then Skeleton
  else
    match Async.data (postQ pg) with
    | None => PostNotFound
    | Some post =>
        Article
          {| heading := Post.title (columns (Spread.base post));
             authorName :=
               nameOr (option_map display_name (Spread.profiles post));
             badge := option_map name (categories (Spread.base post));
             heart := likesCount pg;
             heartFilled := isLiked pg;
             commentTotal := List.length (comments pg);
             cards := map commentCard (comments pg) |}
    end.

(** The click on the heart by itself (lines 241 and 123-139): the
    mutation function runs with the value of [isLiked] the component has
    rendered with; [onSuccess] only invalidates the two like queries, whose
    refetch settles later ([settleLikes]).  The button has no pending
    guard: it can be clicked again before that. *)
Definition pressLike (new_id : Id) (pg : page) : page :=
  match user pg with
  | Some _ =>
      let '(_, d') :=
        likeMutationFn (user pg) (id pg) (isLiked pg) new_id (remote pg) in
      {| remote := d'; id := id pg; user := user pg;
         newComment := newComment pg;
         postQ := postQ pg; commentsQ := commentsQ pg;
         likeQ := likeQ pg; likesCountQ := likesCountQ pg;
         toasts := toasts pg |}
  | None =>
      {| remote := remote pg; id := id pg; user := user pg;
         newComment := newComment pg;
         postQ := postQ pg; commentsQ := commentsQ pg;
         likeQ := likeQ pg; likesCountQ := likesCountQ pg;
         toasts := toasts pg
                   ++ [{| Toast.title := lit "Please sign in to like posts";
                          Toast.description := None;
                          Toast.variant := Toast.destructive |}] |}
  end.

(** The refetch of the like query and of the like count settling
    (lines 141-142 with the query functions of lines 89-120). *)
Definition settleLikes (pg : page) : page :=
  {| remote := remote pg; id := id pg; user := user pg;
     newComment := newComment pg;
     postQ := postQ pg; commentsQ := commentsQ pg;
     likeQ := fetchLike (remote pg) (id pg) (user pg);
     likesCountQ := fetchLikesCount (remote pg) (id pg);
     toasts := toasts pg |}.

End PostDetail.

(* ------------------------------------------------------------------ *)
(** ** The comment box with its mutation in flight ([PostDetail.tsx],
    lines 146-176 and 292-307) *)

Module CommentBox.

Import Js Store Async PostDetail.







End CommentBox.

(* ------------------------------------------------------------------ *)
(** ** The index page and its posts query *)

Module Index.

Import Js Store Async.

(** The columns the posts query selects. *)
Record postData := {
  id : Id;
  title : str;
  excerpt : option str;
  featured_image_url : option str;
  category_id : option Id;
  tags : list str;
  published_at : option N;
  user_id : Id;
  categories : option category_ref
}.

Definition select (d : db) (p : Post.t) : postData :=
  {| id := Post.id p; title := Post.title p; excerpt := Post.excerpt p;
     featured_image_url := Post.featured_image_url p;
     category_id := Post.category_id p; tags := Post.tags p;
     published_at := Post.published_at p; user_id := Post.user_id p;
     categories := category_of d (Post.category_id p) |}.

Definition post_view := Spread.withProfiles postData Profile.t.

(** The pattern of both [ilike] conditions: [%${searchQuery}%]. *)
Definition pattern (searchQuery : str) : str :=
  lit "%" ++ searchQuery ++ lit "%".

(** The conditions the builder has collected when the query is awaited:
    [status = 'published'], then with a non-empty search text
    [title ilike pattern or content ilike pattern], then with a selected
    category [category_id = selectedCategory].  The search text stands in
    the filter string as it was typed; the string is read here as the store
    reads it when the text has none of the separators of its filter
    syntax (comma, parentheses, double quote). *)
Definition matches (searchQuery selectedCategory : str) (p : Post.t) : bool :=
  status_eqb (Post.status p) published
  && (if truthy searchQuery
      then ilike (pattern searchQuery) (Post.title p)
           || ilike (pattern searchQuery) (Post.content p)
      else true)
  && (if truthy selectedCategory
      then match Post.category_id p with
           | Some c => eqb c selectedCategory
           | None => false
           end
      else true).

(** The rows the store answers with. *)
Definition rows (d : db) (searchQuery selectedCategory : str) : list Post.t :=
  order_desc Post.published_at
    (filter (matches searchQuery selectedCategory) (posts d)).

(** Query function of [['posts', searchQuery, selectedCategory]]
    (lines 34-78). *)
Definition postsQueryFn (d : db) (searchQuery selectedCategory : str)
  : outcome (list post_view) :=
  let postsData := map (select d) (rows d searchQuery selectedCategory) in
  let userIds := distinct (map user_id postsData) in
  let profilesData := in_ Profile.user_id userIds (profiles d) in
  Resolved
    (map (fun post =>
            {| Spread.base := post;
               Spread.profiles :=
                 find (fun profile =>
                         eqb (Profile.user_id profile) (user_id post))
                      profilesData |})
       postsData).

(** [authorName] handed to a card (line 173). *)
Definition authorName (p : post_view) : str :=
  match Spread.profiles p with
  | Some pr =>
      match Profile.display_name pr with
      | Some n => orElse n (lit "Anonymous")
      | None => lit "Anonymous"
      end
  | None => lit "Anonymous"
  end.

(** The characters that end a value in the [or=(...)] filter of the
    store, or open a quoted one. *)
Definition isSeparator (c : ascii) : bool :=
  Ascii.eqb c "," || Ascii.eqb c "(" || Ascii.eqb c ")"
  || Ascii.eqb c (ascii_of_N 34).

(** A search text that stands for itself in the filter string: no pattern
    character and no separator. *)
Definition literal (searchQuery : str) : bool :=
  plain searchQuery && forallb (fun c => negb (isSeparator c)) searchQuery.

End Index.

(* ------------------------------------------------------------------ *)
(** ** The post form ([CreatePost.tsx]) *)

Module CreatePost.

Import Js Store Async.

(** The character class [[a-z0-9]]. *)
Definition isLowerAlnum (c : ascii) : bool :=
  inRange 97 122 c || inRange 48 57 c.

Definition hyphen : ascii := "-"%char.

(** [.replace(/[^a-z0-9]+/g, '-')]: scanning from the left, a character
    outside the class starts a match, the match takes every following
    character outside the class, and one hyphen is written for it.
    [inMatch] says that the scan is inside a match. *)
Fixpoint replaceNonAlnum (inMatch : bool) (s : str) : str :=
  match s with
  | [] => []
  | c :: s' =>
      if isLowerAlnum c then c :: replaceNonAlnum false s'
      else if inMatch then replaceNonAlnum true s'
           else hyphen :: replaceNonAlnum true s'
  end.

(** The alternative [-$]: a hyphen that is the last character. *)
Definition dropFinalHyphen (s : str) : str :=
  match rev s with
  | c :: r => if Ascii.eqb c hyphen then rev r else s
  | [] => s
  end.

(** [.replace(/(^-|-$)/g, '')]: [^-] can match at the first position only
    and [-$] at the last only; a match is removed, and the scan goes on
    after it. *)
Definition stripEdgeHyphens (s : str) : str :=
  match s with
  | c :: s' => if Ascii.eqb c hyphen then dropFinalHyphen s'
               else dropFinalHyphen s
  | [] => []
  end.

(** Line 53. *)
Definition slugOf (title : str) : str :=
  stripEdgeHyphens (replaceNonAlnum false (toLowerCase title)).

(** The local state of the form (lines 22-29). *)
Record form := {
  title : str;
  content : str;
  excerpt : str;
  categoryId : str;
  tags : list str;
  newTag : str;
  featuredImage : str
}.

Definition emptyForm : form :=
  {| title := []; content := []; excerpt := []; categoryId := [];
     tags := []; newTag := []; featuredImage := [] |}.

Definition setTags (ts : list str) (f : form) : form :=
  {| title := title f; content := content f; excerpt := excerpt f;
     categoryId := categoryId f; tags := ts; newTag := newTag f;
     featuredImage := featuredImage f |}.

Definition setNewTag (t : str) (f : form) : form :=
  {| title := title f; content := content f; excerpt := excerpt f;
     categoryId := categoryId f; tags := tags f; newTag := t;
     featuredImage := featuredImage f |}.

(** [addTag] (lines 95-100). *)
Definition addTag (f : form) : form :=
  if truthy (trim (newTag f))
     && negb (arrayIncludes (tags f) (trim (newTag f)))
  then setNewTag [] (setTags (tags f ++ [trim (newTag f)]) f)
  else f.

(** [removeTag] (lines 102-104). *)
Definition removeTag (tagToRemove : str) (f : form) : form :=
  setTags (filter (fun tag => negb (eqb tag tagToRemove)) (tags f)) f.

(** What the user can do to the form: type into a field or pick a
    category (the [set...] calls of the inputs), press Add (or Enter) in
    the tag input, click the cross of a tag. *)
Inductive formAction :=
| SetTitle (text : str)
| SetContent (text : str)
| SetExcerpt (text : str)
| SetCategoryId (c : str)
| SetFeaturedImage (url : str)
| SetNewTag (text : str)
| PressAdd
| ClickRemove (tag : str).

Definition formStep (f : form) (a : formAction) : form :=
  match a with
  | SetTitle t =>
      {| title := t; content := content f; excerpt := excerpt f;
         categoryId := categoryId f; tags := tags f; newTag := newTag f;
         featuredImage := featuredImage f |}
  | SetContent t =>
      {| title := title f; content := t; excerpt := excerpt f;
         categoryId := categoryId f; tags := tags f; newTag := newTag f;
         featuredImage := featuredImage f |}
  | SetExcerpt t =>
      {| title := title f; content := content f; excerpt := t;
         categoryId := categoryId f; tags := tags f; newTag := newTag f;
         featuredImage := featuredImage f |}
  | SetCategoryId c =>
      {| title := title f; content := content f; excerpt := excerpt f;
         categoryId := c; tags := tags f; newTag := newTag f;
         featuredImage := featuredImage f |}
  | SetFeaturedImage u =>
      {| title := title f; content := content f; excerpt := excerpt f;
         categoryId := categoryId f; tags := tags f; newTag := newTag f;
         featuredImage := u |}
  | SetNewTag t => setNewTag t f
  | PressAdd => addTag f
  | ClickRemove tag => removeTag tag f
  end.

(** The form after a sequence of actions on the freshly mounted one. *)
Definition edited (acts : list formAction) : form :=
  fold_left formStep acts emptyForm.

(** No entry twice, no blank entry, every entry trimmed. *)
Definition tagsWellFormed (ts : list str) : Prop :=
  NoDup ts /\ Forall (fun t => isBlank t = false /\ trim t = t) ts.

(** [x || null] on a string. *)
Definition orNull (s : str) : option str :=
  if truthy s then Some s else None.

(** The object handed to [insert] (lines 54-65).  [dateNow] is the value
    of [Date.now()], [newDate] the instant of [new Date()]. *)
Record postData := {
  pd_user_id : Id;
  pd_title : str;
  pd_slug : str;
  pd_content : str;
  pd_excerpt : str;
  pd_category_id : option Id;
  pd_tags : list str;
  pd_featured_image_url : option str;
  pd_status : status;
  pd_published_at : option N
}.

Definition buildPostData (u : Auth.user) (f : form) (st : status)
  (dateNow newDate : N) : postData :=
  {| pd_user_id := Auth.id u;
     pd_title := title f;
     pd_slug := slugOf (title f) ++ lit "-" ++ decimal dateNow;
     pd_content := content f;
     pd_excerpt := orElse (excerpt f) (substring0 150 (content f));
     pd_category_id := orNull (categoryId f);
     pd_tags := tags f;
     pd_featured_image_url := orNull (featuredImage f);
     pd_status := st;
     pd_published_at :=
       if status_eqb st published then Some newDate else None |}.

(** The row the store makes of it. *)
Definition toRow (new_id : Id) (created : N) (p : postData) : Post.t :=
  {| Post.id := new_id; Post.user_id := pd_user_id p;
     Post.title := pd_title p; Post.slug := pd_slug p;
     Post.content := pd_content p; Post.excerpt := Some (pd_excerpt p);
     Post.category_id := pd_category_id p; Post.tags := pd_tags p;
     Post.featured_image_url := pd_featured_image_url p;
     Post.status := pd_status p; Post.created_at := created;
     Post.published_at := pd_published_at p |}.

(** [createPostMutation.mutationFn] (lines 50-75). *)
Definition createPostMutationFn (user : option Auth.user) (f : form)
  (st : status) (dateNow newDate : N) (new_id : Id) (created : N) (d : db)
  : outcome Post.t * db :=
  match user with
  | None => (Rejected (Error (lit "User not authenticated")), d)
  | Some u =>
      let '(r, d') :=
        insert_post (toRow new_id created (buildPostData u f st dateNow newDate))
          d in
      match error r, Store.data r with
      | Some e, _ => (Rejected (StoreError e), d')
      | None, Some row => (Resolved row, d')
      | None, None => (Rejected (StoreError PGRST116), d')
      end
  end.

(** The page: store, session, form, notifications, and where [navigate]
    has sent the browser. *)
Record page := {
  remote : db;
  user : option Auth.user;
  fields : form;
  toasts : list Toast.t;
  location : option str
}.

Definition notify (t : Toast.t) (pg : page) : page :=
  {| remote := remote pg; user := user pg; fields := fields pg;
     toasts := toasts pg ++ [t]; location := location pg |}.

(** [handleSave] (lines 106-126) with the mutation's [onSuccess] and
    [onError]. *)
Definition handleSave (st : status) (dateNow newDate : N) (new_id : Id)
  (created : N) (pg : page) : page :=
  if negb (truthy (trim (title (fields pg)))) then
    notify {| Toast.title := lit "Title required";
              Toast.description := Some (lit "Please enter a title for your post.");
              Toast.variant := Toast.destructive |} pg
  else if negb (truthy (trim (content (fields pg)))) then
    notify {| Toast.title := lit "Content required";
              Toast.description :=
                Some (lit "Please enter some content for your post.");
              Toast.variant := Toast.destructive |} pg
  else
    let '(r, d') :=
      createPostMutationFn (user pg) (fields pg) st dateNow newDate
        new_id created (remote pg) in
    match r with
    | Resolved _ =>
        {| remote := d'; user := user pg; fields := fields pg;
           toasts :=
             toasts pg
             ++ [{| Toast.title :=
                      if status_eqb st published then lit "Post published!"
                      else lit "Draft saved!";
                    Toast.description :=
                      Some (if status_eqb st published
                            then lit "Your post is now live and visible to everyone."
                            else lit "Your draft has been saved successfully.");
                    Toast.variant := Toast.default |}];
           location := Some (lit "/") |}
    | Rejected e =>
        notify {| Toast.title := lit "Error";
                  Toast.description := Some (errorMessage e);
                  Toast.variant := Toast.destructive |}
          {| remote := d'; user := user pg; fields := fields pg;
             toasts := toasts pg; location := location pg |}
    end.

End CreatePost.

(* ------------------------------------------------------------------ *)
(** ** The slug as the description words it *)

Module SlugSpec.

Import Js.

(** An alphanumeric character: a letter A-Z or a-z, or a digit. *)
Definition isAlnum (c : ascii) : bool :=
  inRange 65 90 c || inRange 97 122 c || inRange 48 57 c.

Definition isHyphen (c : ascii) : bool := Ascii.eqb c "-".

(** The maximal runs of a string, each with the kind of its characters
    ([true]: alphanumeric). *)
Fixpoint runs (s : str) : list (bool * str) :=
  match s with
  | [] => []
  | c :: s' =>
      match runs s' with
      | (k, run) :: rest =>
          if Bool.eqb k (isAlnum c) then (k, c :: run) :: rest
          else (isAlnum c, [c]) :: (k, run) :: rest
      | [] => [(isAlnum c, [c])]
      end
  end.

(** Every run of non-alphanumeric characters becomes a single hyphen. *)
Definition hyphenateRuns (s : str) : str :=
  List.concat (map (fun r : bool * str => if fst r then snd r else lit "-")
            (runs s)).

(** Leading and trailing hyphens, however many, are trimmed. *)
Definition trimHyphens (s : str) : str :=
  rev (dropWhile isHyphen (rev (dropWhile isHyphen s))).

(** No hyphen next to a hyphen. *)
Fixpoint noDoubleHyphen (s : str) : bool :=
  match s with
  | c :: s' =>
      match s' with
      | c' :: _ => negb (isHyphen c && isHyphen c') && noDoubleHyphen s'
      | [] => true
      end
  | [] => true
  end.

(** Whether a string begins with a non-alphanumeric character. *)
Definition startsNonAlnum (s : str) : bool :=
  match s with c :: _ => negb (isAlnum c) | [] => false end.

(** Lower-case, hyphenate, trim, and append the time in milliseconds. *)
Definition slug (title : str) (now : N) : str :=
  trimHyphens (hyphenateRuns (toLowerCase title)) ++ lit "-" ++ decimal now.

End SlugSpec.

(* ------------------------------------------------------------------ *)
(** ** A small store to run the pages on *)

Module Examples.

Import Js Store.

(** The signed-in reader; no profile row is kept for them. *)
Definition reader : Auth.user := {| Auth.id := lit "u1" |}.

Definition kittens : Post.t :=
  {| Post.id := lit "p1"; Post.user_id := lit "a1";
     Post.title := lit "Kittens at play"; Post.slug := lit "kittens-at-play-1";
     Post.content := lit "Ten kittens."; Post.excerpt := None;
     Post.category_id := Some (lit "c1"); Post.tags := [lit "pets"];
     Post.featured_image_url := None; Post.status := published;
     Post.created_at := 100; Post.published_at := Some 200%N |}.

Definition sketch : Post.t :=
  {| Post.id := lit "p2"; Post.user_id := lit "a2";
     Post.title := lit "More kittens"; Post.slug := lit "more-kittens-2";
     Post.content := lit "To be written."; Post.excerpt := None;
     Post.category_id := None; Post.tags := [];
     Post.featured_image_url := None; Post.status := draft;
     Post.created_at := 150; Post.published_at := None |}.

Definition dogs : Post.t :=
  {| Post.id := lit "p3"; Post.user_id := lit "a2";
     Post.title := lit "Dogs"; Post.slug := lit "dogs-3";
     Post.content := lit "No cats here."; Post.excerpt := None;
     Post.category_id := Some (lit "c1"); Post.tags := [];
     Post.featured_image_url := None; Post.status := published;
     Post.created_at := 250; Post.published_at := Some 300%N |}.

Definition store : db :=
  {| posts := [kittens; sketch; dogs];
     categories := [{| Category.id := lit "c1"; Category.name := lit "Pets";
                       Category.slug := lit "pets" |}];
     profiles := [{| Profile.user_id := lit "a2";
                     Profile.display_name := Some (lit "Ann") |};
                  {| Profile.user_id := lit "u2";
                     Profile.display_name := Some (lit "Bob") |}];
     comments := [{| Comment.id := lit "k1"; Comment.post_id := lit "p1";
                     Comment.user_id := lit "u1";
                     Comment.content := lit "Nice"; Comment.created_at := 210 |};
                  {| Comment.id := lit "k2"; Comment.post_id := lit "p1";
                     Comment.user_id := lit "u2";
                     Comment.content := lit "Cute"; Comment.created_at := 220 |}];
     likes := [{| Like.id := lit "l1"; Like.post_id := lit "p1";
                  Like.user_id := lit "u1" |};
               {| Like.id := lit "l2"; Like.post_id := lit "p1";
                  Like.user_id := lit "u2" |}] |}.

(** The page of the first post, opened by the reader. *)
Definition page : PostDetail.page :=
  PostDetail.mount store (Some (lit "p1")) (Some reader).

(** The reader has typed three spaces into the comment box. *)
Definition blankDraft : PostDetail.page :=
  PostDetail.setNewComment (lit "   ") page.

(** The reader has typed a comment with white space around it. *)
Definition paddedDraft : PostDetail.page :=
  PostDetail.setNewComment (lit "  Lovely!  ") page.

End Examples.

(* ------------------------------------------------------------------ *)
(** ** Paragraphs of a body ([PostDetail.tsx] line 268, [CreatePost.tsx]
    line 169) *)

Module Paragraphs.

Import Js.

Definition newline : ascii := ascii_of_N 10.

(** [s.split(sep)] for a separator of one character: the pieces between
    the separators, empty pieces included; one piece when there is no
    separator. *)
Fixpoint split (sep : ascii) (s : str) : list str :=
  match s with
  | [] => [[]]
  | c :: s' =>
      if Ascii.eqb c sep then [] :: split sep s'
      else
        match split sep s' with
        | piece :: pieces => (c :: piece) :: pieces
        | [] => [[c]]
        end
  end.

(** [pieces.join(sep)]. *)
Fixpoint join (sep : ascii) (pieces : list str) : str :=
  match pieces with
  | [] => []
  | piece :: rest =>
      match rest with
      | [] => piece
      | _ :: _ => piece ++ sep :: join sep rest
      end
  end.

(** [content.split('\n')]: one [<p>] is rendered for each piece. *)
Definition paragraphs (content : str) : list str := split newline content.

(** The number of occurrences of a character. *)
Definition occurrences (c : ascii) (s : str) : nat :=
  List.length (filter (Ascii.eqb c) s).

End Paragraphs.

(* ------------------------------------------------------------------ *)
(** ** A card of the listing ([BlogCard.tsx]) *)

Module BlogCard.

Import Js Store.

(** The props; the optional ones are options. *)
Record props := {
  id : Id;
  title : str;
  excerpt : str;
  featuredImage : option str;
  category : option category_ref;
  tags : option (list str);
  authorName : str;
  publishedAt : option N;
  likesCount : option N;
  commentsCount : option N
}.

(** What the card shows. *)
Record card := {
  image : option str;
  badge : option str;
  link : str;
  heading : str;
  text : str;
  tagBadges : list str;
  moreBadge : option nat;
  author : str;
  hearts : N;
  bubbles : N
}.

(** The component (lines 20-99), with the defaults of lines 26-30. *)
Definition render (p : props) : card :=
  let tags := match tags p with Some ts => ts | None => [] end in
  let likesCount := match likesCount p with Some n => n | None => 0%N end in
  let commentsCount :=
    match commentsCount p with Some n => n | None => 0%N end in
  {| image :=
       match featuredImage p with
       | Some url => if truthy url then Some url else None
       | None => None
       end;
     badge := option_map name (category p);
     link := lit "/post/" ++ id p;
     heading := title p;
     text := excerpt p;
     tagBadges :=
       if (0 <? List.length tags)%nat then firstn 3 tags else [];
     moreBadge :=
       if (0 <? List.length tags)%nat && (3 <? List.length tags)%nat
       then Some (List.length tags - 3)%nat else None;
     author := authorName p;
     hearts := likesCount;
     bubbles := commentsCount |}.

End BlogCard.

(* ------------------------------------------------------------------ *)
(** ** What the index page shows (lines 143-178 of the index page) *)

Module IndexPage.

Import Js Store Async.

(** The props the page hands to a card (lines 165-175). *)
Definition cardProps (post : Index.post_view) : BlogCard.props :=
  {| BlogCard.id := Index.id (Spread.base post);
     BlogCard.title := Index.title (Spread.base post);
     BlogCard.excerpt :=
       match Index.excerpt (Spread.base post) with
       | Some e => orElse e []
       | None => []
       end;
     BlogCard.featuredImage := Index.featured_image_url (Spread.base post);
     BlogCard.category := Index.categories (Spread.base post);
     BlogCard.tags := Some (Index.tags (Spread.base post));
     BlogCard.authorName := Index.authorName post;
     BlogCard.publishedAt := Index.published_at (Spread.base post);
     BlogCard.likesCount := None;
     BlogCard.commentsCount := None |}.

Inductive screen :=
| Placeholders (n : nat)
| NoPosts (hint : str)
| Grid (cards : list BlogCard.card).

(** The posts grid for the state of the posts query and the two
    filters. *)
Definition render (q : query (list Index.post_view))
  (searchQuery selectedCategory : str) : screen :=
  let posts := match Async.data q with Some ps => ps | None => [] end in
  if isLoading q then Placeholders 6
  else if (List.length posts =? 0)%nat then
    NoPosts (if truthy searchQuery || truthy selectedCategory
             then lit "Try adjusting your search or filter criteria."
             else lit "Be the first to create a post!")
  else Grid (map (fun post => BlogCard.render (cardProps post)) posts).

(** The page once its posts query has settled against store [d]. *)
Definition show (d : db) (searchQuery selectedCategory : str) : screen :=
  render (Settled (Index.postsQueryFn d searchQuery selectedCategory))
    searchQuery selectedCategory.

End IndexPage.

(* ------------------------------------------------------------------ *)
(** ** Shapes of slugs *)

Module SlugShape.

Import Js.

(** A character of a slug: a lower-case letter, a digit or a hyphen. *)
Definition slugChar (c : ascii) : bool :=
  CreatePost.isLowerAlnum c || Ascii.eqb c CreatePost.hyphen.

(** A slug without its time suffix: slug characters, no hyphen at either
    end, no hyphen next to a hyphen. *)
Definition wellShaped (s : str) : Prop :=
  forallb slugChar s = true
  /\ SlugSpec.noDoubleHyphen s = true
  /\ (forall r, s <> CreatePost.hyphen :: r)
  /\ (forall r, s <> r ++ [CreatePost.hyphen]).

End SlugShape.

(* ------------------------------------------------------------------ *)
(** ** A post being written *)

Module Drafts.

Import Js Store.

(** A form filled in without an excerpt, a category or an image. *)
Definition hello : CreatePost.form :=
  CreatePost.edited
    [CreatePost.SetTitle (lit "Hello, World!");
     CreatePost.SetContent (lit "A first post.");
     CreatePost.SetNewTag (lit " news ");
     CreatePost.PressAdd].

(** The same text under another title that gives the same slug. *)
Definition helloAgain : CreatePost.form :=
  CreatePost.formStep hello (CreatePost.SetTitle (lit "hello world")).

(** The form page of the reader of the examples. *)
Definition page : CreatePost.page :=
  {| CreatePost.remote := Examples.store;
     CreatePost.user := Some Examples.reader;
     CreatePost.fields := hello;
     CreatePost.toasts := [];
     CreatePost.location := None |}.

End Drafts.

(* ================================================================== *)
(** * Properties *)

Unset Implicit Arguments.

(** ** Strings *)

Module JsFacts.

Import Js.

Lemma eqb_refl (a : str) : eqb a a = true.
Proof.
  induction a as [|x a IH]; simpl; [reflexivity|].
  now rewrite Ascii.eqb_refl, IH.
Qed.

Lemma eqb_eq (a b : str) : eqb a b = true <-> a = b.
Proof.
  split; [|intros ->; apply eqb_refl].
  revert b; induction a as [|x a IH]; intros [|y b]; simpl; try easy.
  intros H; apply andb_true_iff in H as [Hx Hab].
  apply Ascii.eqb_eq in Hx; subst y.
  now rewrite (IH b Hab).
Qed.

Lemma eqb_neq (a b : str) : eqb a b = false <-> a <> b.
Proof.
  split.
  - intros H E; subst b; rewrite eqb_refl in H; discriminate.
  - intros H; destruct (eqb a b) eqn:E; [|reflexivity].
    apply eqb_eq in E; contradiction.
Qed.

Lemma arrayIncludes_In (xs : list str) (x : str) :
  arrayIncludes xs x = true <-> In x xs.
Proof.
  unfold arrayIncludes; rewrite existsb_exists; split.
  - intros (y & Hy & E); apply eqb_eq in E; now subst.
  - intros H; exists x; split; [assumption | apply eqb_refl].
Qed.

Lemma truthy_nonempty (s : str) : truthy s = true <-> s <> [].
Proof. destruct s; simpl; split; congruence. Qed.

Section Strip.

Variable A : Type.
Variable p : A -> bool.

Lemma dropWhile_split (l : list A) :
  exists pre, l = pre ++ dropWhile p l /\ forallb p pre = true.
Proof.
  induction l as [|x l (pre & E & Hp)]; simpl.
  - now exists [].
  - destruct (p x) eqn:Px.
    + exists (x :: pre); simpl; rewrite Px, Hp; split; [now f_equal | reflexivity].
    + now exists [].
Qed.

Lemma dropWhile_head (l : list A) x r : dropWhile p l = x :: r -> p x = false.
Proof.
  induction l as [|y l IH]; simpl; [discriminate|].
  destruct (p y) eqn:Py; [assumption|].
  now intros [= <- _].
Qed.

Lemma dropWhile_all (l : list A) : forallb p l = true -> dropWhile p l = [].
Proof.
  induction l as [|x l IH]; simpl; [reflexivity|].
  intros H; apply andb_true_iff in H as [-> H]; auto.
Qed.

Lemma dropWhile_nil (l : list A) : dropWhile p l = [] -> forallb p l = true.
Proof.
  induction l as [|x l IH]; simpl; [reflexivity|].
  destruct (p x); [assumption | discriminate].
Qed.

Lemma forallb_rev (l : list A) : forallb p (rev l) = forallb p l.
Proof.
  induction l as [|x l IH]; simpl; [reflexivity|].
  rewrite forallb_app, IH; simpl; rewrite andb_true_r; apply andb_comm.
Qed.

(** A list splits into a dropped prefix, its stripped middle and a dropped
    suffix. *)
Lemma strip_split (l : list A) :
  exists pre suf,
    l = pre ++ strip p l ++ suf
    /\ forallb p pre = true /\ forallb p suf = true.
Proof.
  unfold strip.
  destruct (dropWhile_split l) as (pre & E1 & H1).
  destruct (dropWhile_split (rev (dropWhile p l))) as (suf & E2 & H2).
  exists pre, (rev suf); repeat split.
  - rewrite <- rev_app_distr, <- E2, rev_involutive; exact E1.
  - exact H1.
  - now rewrite forallb_rev.
Qed.

Lemma strip_last (l u : list A) c : strip p l = u ++ [c] -> p c = false.
Proof.
  unfold strip; intros H.
  apply (f_equal (@rev A)) in H.
  rewrite rev_involutive, rev_app_distr in H; simpl in H.
  exact (dropWhile_head _ _ _ H).
Qed.

Lemma strip_first (l u : list A) c : strip p l = c :: u -> p c = false.
Proof.
  intros H.
  destruct (dropWhile_split (rev (dropWhile p l))) as (suf & E2 & _).
  apply (f_equal (@rev A)) in E2.
  rewrite rev_involutive, rev_app_distr in E2.
  fold (strip p l) in E2; rewrite H in E2; simpl in E2.
  exact (dropWhile_head _ _ _ E2).
Qed.

Lemma strip_nil_iff (l : list A) : strip p l = [] <-> forallb p l = true.
Proof.
  split.
  - intros H; destruct (strip_split l) as (pre & suf & E & H1 & H2).
    rewrite H in E; simpl in E; rewrite E, forallb_app, H1, H2; reflexivity.
  - intros H; unfold strip; rewrite (dropWhile_all _ H); reflexivity.
Qed.

(** A list with nothing to drop at either end is left as it is. *)
Lemma strip_fixed (l : list A) :
  (forall c u, l = c :: u -> p c = false) ->
  (forall u c, l = u ++ [c] -> p c = false) ->
  strip p l = l.
Proof.
  intros Hfirst Hlast; unfold strip.
  assert (E1 : dropWhile p l = l).
  { destruct l as [|c u]; [reflexivity|].
    simpl; now rewrite (Hfirst c u eq_refl). }
  rewrite E1.
  assert (E2 : dropWhile p (rev l) = rev l).
  { destruct (rev l) as [|c r] eqn:R; [reflexivity|].
    apply (f_equal (@rev A)) in R; rewrite rev_involutive in R; simpl in R.
    simpl; now rewrite (Hlast _ _ R). }
  rewrite E2; apply rev_involutive.
Qed.

Lemma strip_idem (l : list A) : strip p (strip p l) = strip p l.
Proof.
  apply strip_fixed.
  - intros c u H; eapply strip_first; eassumption.
  - intros u c H; eapply strip_last; eassumption.
Qed.

End Strip.

Lemma trim_strip (s : str) : trim s = strip isWhiteSpace s.
Proof. reflexivity. Qed.

Lemma trim_idem (s : str) : trim (trim s) = trim s.
Proof. rewrite !trim_strip; apply strip_idem. Qed.

(** Nothing is left of a string by [trim] exactly when it is empty or made
    of white space only. *)
Lemma trim_nil_iff (s : str) : trim s = [] <-> forallb isWhiteSpace s = true.
Proof. rewrite trim_strip; apply strip_nil_iff. Qed.

End JsFacts.

(** ** The post form *)

Module CreatePostFacts.

Import Js JsFacts Store Async CreatePost.

Lemma trim_not_blank (s : str) : truthy (trim s) = true -> isBlank (trim s) = false.
Proof.
  intros H; apply truthy_nonempty in H.
  destruct (isBlank (trim s)) eqn:B; [|reflexivity].
  apply trim_nil_iff in B; rewrite trim_idem in B; contradiction.
Qed.

Lemma addTag_tags (f : form) :
  tags (addTag f) = tags f
  \/ (tags (addTag f) = tags f ++ [trim (newTag f)]
      /\ isBlank (trim (newTag f)) = false
      /\ ~ In (trim (newTag f)) (tags f)).
Proof.
  unfold addTag.
  destruct (truthy (trim (newTag f))) eqn:T; simpl; [|now left].
  destruct (arrayIncludes (tags f) (trim (newTag f))) eqn:I; simpl; [now left|].
  right; repeat split.
  - now apply trim_not_blank.
  - intros HIn; apply arrayIncludes_In in HIn; congruence.
Qed.

Lemma removeTag_In (t x : str) (f : form) :
  In x (tags (removeTag t f)) <-> In x (tags f) /\ x <> t.
Proof.
  unfold removeTag; simpl; rewrite filter_In, negb_true_iff, eqb_neq; tauto.
Qed.

Lemma tagsWellFormed_filter (keep : str -> bool) (ts : list str) :
  tagsWellFormed ts -> tagsWellFormed (filter keep ts).
Proof.
  intros [ND F]; split.
  - now apply NoDup_filter.
  - rewrite Forall_forall in *; intros x Hx; apply filter_In in Hx; now apply F.
Qed.

Lemma tagsWellFormed_snoc (ts : list str) (t : str) :
  tagsWellFormed ts -> ~ In t ts -> isBlank t = false -> trim t = t ->
  tagsWellFormed (ts ++ [t]).
Proof.
  intros [ND F] NI B T; split.
  - apply (Permutation_NoDup (Permutation_cons_append ts t)).
    now constructor.
  - apply Forall_app; split; [assumption | now repeat constructor].
Qed.

(** Every action keeps the tag list well formed. *)
Lemma formStep_tagsWellFormed (f : form) (a : formAction) :
  tagsWellFormed (tags f) -> tagsWellFormed (tags (formStep f a)).
Proof.
  intros WF; destruct a; simpl; try assumption.
  - destruct (addTag_tags f) as [-> | (-> & B & NI)]; [assumption|].
    apply tagsWellFormed_snoc; auto using trim_idem.
  - now apply tagsWellFormed_filter.
Qed.

Lemma fold_tagsWellFormed (acts : list formAction) (f : form) :
  tagsWellFormed (tags f) -> tagsWellFormed (tags (fold_left formStep acts f)).
Proof.
  revert f; induction acts as [|a acts IH]; intros f WF; simpl; [assumption|].
  apply IH, formStep_tagsWellFormed, WF.
Qed.

(** *** The slug *)

Lemma lowerUnit_not_upper (c : ascii) : inRange 65 90 (lowerUnit c) = false.
Proof. destruct c as [[] [] [] [] [] [] [] []]; reflexivity. Qed.

Lemma isAlnum_lower (c : ascii) :
  SlugSpec.isAlnum (lowerUnit c) = isLowerAlnum (lowerUnit c).
Proof.
  unfold SlugSpec.isAlnum, isLowerAlnum; now rewrite lowerUnit_not_upper.
Qed.

Lemma isLowerAlnum_not_hyphen (c : ascii) :
  isLowerAlnum c = true -> SlugSpec.isHyphen c = false.
Proof. destruct c as [[] [] [] [] [] [] [] []]; simpl; easy. Qed.

Lemma runs_head (s : str) k run rest :
  SlugSpec.runs s = (k, run) :: rest ->
  exists c s', s = c :: s' /\ k = SlugSpec.isAlnum c.
Proof.
  destruct s as [|c s']; simpl; [discriminate|].
  intros H; exists c, s'; split; [reflexivity|].
  destruct (SlugSpec.runs s') as [|[k' run'] rest'].
  - now injection H as <- _ _.
  - destruct (Bool.eqb k' (SlugSpec.isAlnum c)) eqn:E.
    + injection H as <- _ _; now apply eqb_prop.
    + now injection H as <- _ _.
Qed.

Lemma runs_nil (s : str) : SlugSpec.runs s = [] -> s = [].
Proof.
  destruct s as [|c s']; simpl; [reflexivity|].
  destruct (SlugSpec.runs s') as [|[k run] rest]; [discriminate|].
  now destruct (Bool.eqb k (SlugSpec.isAlnum c)).
Qed.

(** How hyphenation proceeds from the left. *)
Lemma hyphenateRuns_cons (c : ascii) (s : str) :
  SlugSpec.hyphenateRuns (c :: s) =
  if SlugSpec.isAlnum c then c :: SlugSpec.hyphenateRuns s
  else if SlugSpec.startsNonAlnum s then SlugSpec.hyphenateRuns s
       else hyphen :: SlugSpec.hyphenateRuns s.
Proof.
  unfold SlugSpec.hyphenateRuns; simpl.
  destruct (SlugSpec.runs s) as [|[k run] rest] eqn:R.
  - apply runs_nil in R; subst s; simpl.
    now destruct (SlugSpec.isAlnum c).
  - destruct (runs_head _ _ _ _ R) as (c' & s' & -> & ->); simpl.
    destruct (SlugSpec.isAlnum c), (SlugSpec.isAlnum c'); reflexivity.
Qed.

Section Hyphenate.

Import SlugSpec.

(** On a string whose letters are all lower-case the scan of the regular
    expression writes what hyphenating the runs writes. *)
Lemma replaceNonAlnum_hyphenateRuns (s : str) :
  Forall (fun c => isAlnum c = isLowerAlnum c) s ->
  replaceNonAlnum false s = hyphenateRuns s
  /\ (startsNonAlnum s = true ->
      hyphen :: replaceNonAlnum true s = hyphenateRuns s)
  /\ (startsNonAlnum s = false -> replaceNonAlnum true s = hyphenateRuns s).
Proof.
  induction 1 as [|c s Hc _ (IH1 & IH2 & IH3)]; [now repeat split|].
  rewrite hyphenateRuns_cons; simpl; rewrite <- Hc.
  destruct (isAlnum c) eqn:A; simpl.
  - rewrite IH1; repeat split; easy.
  - assert (E : hyphen :: replaceNonAlnum true s =
                if startsNonAlnum s then hyphenateRuns s
                else hyphen :: hyphenateRuns s).
    { destruct (startsNonAlnum s); [now apply IH2 | now rewrite IH3]. }
    repeat split; easy.
Qed.

Lemma replaceNonAlnum_noDouble (s : str) :
  noDoubleHyphen (replaceNonAlnum false s) = true
  /\ noDoubleHyphen (hyphen :: replaceNonAlnum true s) = true.
Proof.
  induction s as [|c s [IH1 IH2]]; [now split|].
  simpl replaceNonAlnum.
  destruct (isLowerAlnum c) eqn:A; [|now split].
  pose proof (isLowerAlnum_not_hyphen _ A) as NH.
  assert (E : noDoubleHyphen (c :: replaceNonAlnum false s) = true).
  { simpl; destruct (replaceNonAlnum false s); [reflexivity|].
    now rewrite NH. }
  split; [exact E|].
  change (negb (isHyphen hyphen && isHyphen c)
          && noDoubleHyphen (c :: replaceNonAlnum false s) = true).
  now rewrite NH, E.
Qed.

Lemma noDouble_tail (c : ascii) (s : str) :
  noDoubleHyphen (c :: s) = true -> noDoubleHyphen s = true.
Proof.
  simpl; destruct s; [reflexivity|].
  intros H; now apply andb_true_iff in H.
Qed.

Lemma noDouble_last_two (s : str) (a b : ascii) :
  noDoubleHyphen (s ++ [a; b]) = true -> isHyphen a && isHyphen b = false.
Proof.
  induction s as [|c s IH]; simpl.
  - rewrite andb_true_r; apply negb_true_iff.
  - intros H; apply IH.
    destruct (s ++ [a; b]) eqn:E; [now destruct s|].
    now apply andb_true_iff in H.
Qed.

Lemma dropFinalHyphen_spec (s : str) :
  noDoubleHyphen s = true ->
  dropFinalHyphen s = rev (dropWhile isHyphen (rev s)).
Proof.
  intros ND; unfold dropFinalHyphen.
  destruct (rev s) as [|c r] eqn:R.
  - apply (f_equal (@rev ascii)) in R; now rewrite rev_involutive in R.
  - apply (f_equal (@rev ascii)) in R; rewrite rev_involutive in R.
    simpl in R; simpl dropWhile.
    change (Ascii.eqb c hyphen) with (isHyphen c).
    destruct (isHyphen c) eqn:Hc; [|now rewrite R].
    destruct r as [|c' r']; [reflexivity|].
    simpl in R; rewrite <- app_assoc in R; simpl in R.
    rewrite R in ND; apply noDouble_last_two in ND.
    rewrite Hc, andb_true_r in ND; simpl; now rewrite ND.
Qed.

(** Without doubled hyphens, removing one hyphen at each end removes all
    the hyphens there are at the ends. *)
Lemma stripEdgeHyphens_trimHyphens (s : str) :
  noDoubleHyphen s = true -> stripEdgeHyphens s = trimHyphens s.
Proof.
  intros ND; unfold stripEdgeHyphens, trimHyphens.
  destruct s as [|c s]; [reflexivity|].
  change (Ascii.eqb c hyphen) with (isHyphen c).
  simpl dropWhile.
  destruct (isHyphen c) eqn:Hc.
  - assert (E : dropWhile isHyphen s = s).
    { destruct s as [|c' s']; [reflexivity|].
      simpl in ND; rewrite Hc in ND; simpl in ND.
      apply andb_true_iff in ND as [ND _]; apply negb_true_iff in ND.
      simpl; now rewrite ND. }
    rewrite E; apply dropFinalHyphen_spec; exact (noDouble_tail _ _ ND).
  - now apply dropFinalHyphen_spec.
Qed.

End Hyphenate.

Lemma slugOf_spec (t : str) :
  slugOf t = SlugSpec.trimHyphens (SlugSpec.hyphenateRuns (toLowerCase t)).
Proof.
  unfold slugOf.
  rewrite stripEdgeHyphens_trimHyphens
    by apply replaceNonAlnum_noDouble.
  f_equal; apply replaceNonAlnum_hyphenateRuns.
  unfold toLowerCase; apply Forall_forall; intros c Hc.
  apply in_map_iff in Hc as (c0 & <- & _); apply isAlnum_lower.
Qed.

(** *** Decimal numerals *)

Lemma string_of_uint_digits (u : Decimal.uint) :
  forallb isDigit (list_ascii_of_string (NilEmpty.string_of_uint u)) = true.
Proof. induction u; simpl; auto. Qed.

Lemma decimal_digits (n : N) :
  decimal n <> [] /\ forallb isDigit (decimal n) = true.
Proof.
  split; [|apply string_of_uint_digits].
  unfold decimal; destruct n as [|p]; [discriminate|].
  simpl N.to_uint.
  pose proof (Unsigned.to_uint_nonnil p) as NN.
  destruct (Pos.to_uint p); try contradiction; discriminate.
Qed.

(** *** The row a save inserts *)

Lemma createPostMutationFn_signed_in (u : Auth.user) (f : form) (st : status)
  (dateNow newDate : N) (new_id : Id) (created : N) (d : db) :
  createPostMutationFn (Some u) f st dateNow newDate new_id created d =
  (Resolved (toRow new_id created (buildPostData u f st dateNow newDate)),
   {| posts := posts d
               ++ [toRow new_id created (buildPostData u f st dateNow newDate)];
      categories := categories d; profiles := profiles d;
      comments := comments d; likes := likes d |}).
Proof. reflexivity. Qed.

(** C5.  The slug of the row a signed-in author's save inserts is the
    lower-cased title with every run of non-alphanumeric characters
    replaced by one hyphen and the hyphens at both ends trimmed, followed
    by a hyphen and the decimal digits of [Date.now()]; for the title
    "Hello, World!" it is "hello-world-" followed by digits. *)
Theorem slug_of_created_post (u : Auth.user) (f : form) (st : status)
  (dateNow newDate : N) (new_id : Id) (created : N) (d : db) :
  exists row d',
    createPostMutationFn (Some u) f st dateNow newDate new_id created d
    = (Resolved row, d')
    /\ posts d' = posts d ++ [row]
    /\ Post.slug row = SlugSpec.slug (title f) dateNow
    /\ decimal dateNow <> []
    /\ forallb isDigit (decimal dateNow) = true
    /\ exists hello d'',
         createPostMutationFn (Some u)
           (formStep f (SetTitle (lit "Hello, World!"))) st dateNow newDate
           new_id created d = (Resolved hello, d'')
         /\ Post.slug hello = lit "hello-world-" ++ decimal dateNow.
Proof.
  eexists _, _; split; [apply createPostMutationFn_signed_in|].
  split; [reflexivity|]; simpl.
  destruct (decimal_digits dateNow) as [NE DG].
  repeat split; try assumption.
  - unfold SlugSpec.slug; now rewrite slugOf_spec.
  - eexists _, _; split; [apply createPostMutationFn_signed_in|].
    reflexivity.
Qed.

(** C7.  The row a signed-in author's save inserts has the instant of
    [new Date()] as its publish timestamp exactly when the requested
    status is published, and null exactly when it is draft. *)
Theorem published_at_iff_published (u : Auth.user) (f : form) (st : status)
  (dateNow newDate : N) (new_id : Id) (created : N) (d : db) :
  exists row d',
    createPostMutationFn (Some u) f st dateNow newDate new_id created d
    = (Resolved row, d')
    /\ posts d' = posts d ++ [row]
    /\ Post.status row = st
    /\ (Post.published_at row = Some newDate <-> st = published)
    /\ (Post.published_at row = None <-> st = draft).
Proof.
  eexists _, _; split; [apply createPostMutationFn_signed_in|].
  split; [reflexivity|]; simpl.
  destruct st; simpl; repeat split; congruence.
Qed.

(** C10.  Whatever the author does to the form, its tag list has no entry
    twice and no empty or white-space-only entry, and it is the tag list of
    the row a save inserts; [addTag] leaves the list alone or appends the
    trimmed input, which is then not blank and was not in the list, and
    [removeTag] keeps, in their order, the entries other than the removed
    one. *)
Theorem tag_list_well_formed (acts : list formAction) (u : Auth.user)
  (st : status) (dateNow newDate : N) (new_id : Id) (created : N) (d : db) :
  tagsWellFormed (tags (edited acts))
  /\ (exists row d',
        createPostMutationFn (Some u) (edited acts) st dateNow newDate
          new_id created d = (Resolved row, d')
        /\ posts d' = posts d ++ [row]
        /\ Post.tags row = tags (edited acts))
  /\ (forall g : form,
        tags (addTag g) = tags g
        \/ (tags (addTag g) = tags g ++ [trim (newTag g)]
            /\ isBlank (trim (newTag g)) = false
            /\ ~ In (trim (newTag g)) (tags g)))
  /\ (forall (t : str) (g : form),
        tags (removeTag t g) = filter (fun x => negb (eqb x t)) (tags g)
        /\ forall x, In x (tags (removeTag t g)) <-> In x (tags g) /\ x <> t).
Proof.
  split; [|split; [|split]].
  - apply fold_tagsWellFormed; split; constructor.
  - eexists _, _; split; [apply createPostMutationFn_signed_in|].
    split; reflexivity.
  - apply addTag_tags.
  - intros t g; split; [reflexivity | intros x; apply removeTag_In].
Qed.

End CreatePostFacts.

(** ** The store *)

Module StoreFacts.

Import Js JsFacts Store.

Lemma filter_filter (A : Type) (f g : A -> bool) (l : list A) :
  filter f (filter g l) = filter (fun x => g x && f x) l.
Proof.
  induction l as [|x l IH]; simpl; [reflexivity|].
  destruct (g x); simpl; [destruct (f x)|]; now rewrite IH.
Qed.

Lemma existsb_filter_nil (A : Type) (f : A -> bool) (l : list A) :
  existsb f l = false <-> filter f l = [].
Proof.
  induction l as [|x l IH]; simpl; [easy|].
  destruct (f x); simpl; [easy | exact IH].
Qed.

Lemma existsb_filter_negb (A : Type) (f : A -> bool) (l : list A) :
  existsb f (filter (fun x => negb (f x)) l) = false.
Proof.
  induction l as [|x l IH]; simpl; [reflexivity|].
  destruct (f x) eqn:F; simpl; [assumption | now rewrite F].
Qed.

Lemma NoDup_map_filter (A B : Type) (k : A -> B) (f : A -> bool) (l : list A) :
  NoDup (map k l) -> NoDup (map k (filter f l)).
Proof.
  induction l as [|x l IH]; simpl; [easy|].
  intros H; inversion_clear H as [|? ? NI ND].
  destruct (f x); simpl; [|auto].
  constructor; [|auto].
  intros HIn; apply NI.
  apply in_map_iff in HIn as (y & E & Hy); apply filter_In in Hy as [Hy _].
  rewrite <- E; now apply in_map.
Qed.

Lemma likeOf_key (p u : Id) (l : Like.t) :
  likeOf p u l = true <-> key l = (p, u).
Proof.
  unfold likeOf, key; rewrite andb_true_iff, !eqb_eq.
  split; [intros [-> ->]; reflexivity | intros [= -> ->]; now split].
Qed.

Lemma hasLike_key (p u : Id) (ls : list Like.t) :
  existsb (likeOf p u) ls = true <-> In (p, u) (map key ls).
Proof.
  rewrite existsb_exists, in_map_iff; split.
  - intros (l & Hl & E); exists l; split; [now apply likeOf_key | assumption].
  - intros (l & E & Hl); exists l; split; [assumption | now apply likeOf_key].
Qed.

(** Under the uniqueness of likes at most one row answers the two
    equality filters of the like query. *)
Lemma unique_at_most_one (p u : Id) (ls : list Like.t) :
  NoDup (map key ls) -> (List.length (filter (likeOf p u) ls) <= 1)%nat.
Proof.
  induction ls as [|x ls IH]; simpl; [lia|].
  intros H; inversion_clear H as [|? ? NI ND].
  destruct (likeOf p u x) eqn:L; [|auto].
  apply likeOf_key in L; rewrite L in NI.
  destruct (existsb (likeOf p u) ls) eqn:E.
  - apply hasLike_key in E; contradiction.
  - apply existsb_filter_nil in E; rewrite E; simpl; lia.
Qed.

Lemma two_filters (p u : Id) (ls : list Like.t) :
  eq_ Like.user_id u (eq_ Like.post_id p ls) = filter (likeOf p u) ls.
Proof. unfold eq_; apply filter_filter. Qed.

Lemma single_like_ok (p u : Id) (ls : list Like.t) :
  NoDup (map key ls) -> existsb (likeOf p u) ls = true ->
  exists i, single (map Like.id (filter (likeOf p u) ls)) = ok i.
Proof.
  intros ND E; pose proof (unique_at_most_one p u ls ND) as LE.
  destruct (filter (likeOf p u) ls) as [|x [|y r]] eqn:F.
  - apply existsb_filter_nil in F; congruence.
  - now exists (Like.id x).
  - simpl in LE; lia.
Qed.

(** The like count of a post splits into the likes of one user and the
    likes of the others. *)
Lemma count_split (p u : Id) (ls : list Like.t) :
  List.length (eq_ Like.post_id p ls)
  = (List.length (eq_ Like.post_id p (filter (fun l => negb (likeOf p u l)) ls))
     + List.length (filter (likeOf p u) ls))%nat.
Proof.
  unfold eq_, likeOf; induction ls as [|x ls IH]; simpl; [reflexivity|].
  destruct (eqb (Like.post_id x) p) eqn:P; simpl.
  - destruct (eqb (Like.user_id x) u); simpl; rewrite ?P; simpl; lia.
  - now rewrite P.
Qed.

Lemma insert_like_absent (n p u : Id) (d : db) :
  existsb (likeOf p u) (likes d) = false ->
  insert_like n p u d
  = (ok tt,
     {| posts := posts d; categories := categories d; profiles := profiles d;
        comments := comments d;
        likes := likes d ++ [{| Like.id := n; Like.post_id := p;
                                Like.user_id := u |}] |}).
Proof. unfold insert_like; now intros ->. Qed.

Lemma append_like_unique (n p u : Id) (ls : list Like.t) :
  NoDup (map key ls) -> existsb (likeOf p u) ls = false ->
  NoDup (map key (ls ++ [{| Like.id := n; Like.post_id := p;
                            Like.user_id := u |}])).
Proof.
  intros ND E; rewrite map_app; simpl.
  apply (Permutation_NoDup (Permutation_cons_append _ _)).
  constructor; [|assumption].
  intros HIn; apply (hasLike_key p u ls) in HIn; congruence.
Qed.

End StoreFacts.

(** ** The post page *)

Module PostDetailFacts.

Import Js JsFacts Store StoreFacts Async PostDetail.

(** The keys of a table written out are pairwise different. *)
Ltac distinct_keys :=
  simpl; repeat constructor; simpl; intuition discriminate.

(** *** Loading a post *)

Lemma filter_none (A : Type) (f : A -> bool) (l : list A) :
  (forall x, In x l -> f x = false) -> filter f l = [].
Proof.
  induction l as [|x l IH]; simpl; [reflexivity|].
  intros H; rewrite (H x (or_introl eq_refl)); auto.
Qed.

(** A key picks its row. *)
Lemma filter_key (A : Type) (k : A -> str) (l : list A) (x : A) :
  NoDup (map k l) -> In x l -> eq_ k (k x) l = [x].
Proof.
  unfold eq_; induction l as [|y l IH]; simpl; [easy|].
  intros ND HIn; inversion_clear ND as [|? ? NI ND'].
  destruct HIn as [-> | HIn].
  - rewrite eqb_refl; f_equal; apply filter_none.
    intros z Hz; apply eqb_neq; intros E; apply NI.
    rewrite <- E; now apply in_map.
  - assert (N : eqb (k y) (k x) = false).
    { apply eqb_neq; intros E; apply NI; rewrite E; now apply in_map. }
    rewrite N; auto.
Qed.

Lemma postQueryFn_missing (d : db) (i : Id) :
  truthy i = true -> (forall p, In p (posts d) -> Post.id p <> i) ->
  postQueryFn d (Some i) = Rejected (StoreError PGRST116).
Proof.
  intros T H; unfold postQueryFn, eq_; rewrite T; simpl.
  rewrite filter_none; [reflexivity|].
  intros p Hp; apply eqb_neq; auto.
Qed.

Lemma postQueryFn_found (d : db) (p : Post.t) :
  posts_keyed d -> In p (posts d) -> truthy (Post.id p) = true ->
  postQueryFn d (Some (Post.id p))
  = Resolved {| Spread.base := embed_category d p;
                Spread.profiles :=
                  Store.data (single (authorRows d (Post.user_id p))) |}.
Proof.
  intros K HIn T; unfold postQueryFn; rewrite T; simpl.
  now rewrite (filter_key Post.t Post.id (posts d) p K HIn).
Qed.

Lemma render_mount (d : db) (i : Id) (user : option Auth.user) :
  truthy i = true ->
  render (mount d (Some i) user)
  = match postQueryFn d (Some i) with
    | Resolved post =>
        Article
          {| heading := Post.title (columns (Spread.base post));
             authorName :=
               nameOr (option_map display_name (Spread.profiles post));
             badge := option_map name (categories (Spread.base post));
             heart := likesCount (mount d (Some i) user);
             heartFilled := isLiked (mount d (Some i) user);
             commentTotal := List.length (comments (mount d (Some i) user));
             cards := map commentCard (comments (mount d (Some i) user)) |}
    | Rejected _ => PostNotFound
    end.
Proof.
  intros T; unfold render.
  assert (Q : postQ (mount d (Some i) user)
              = Settled (postQueryFn d (Some i))).
  { unfold mount, fetchPost, fetch, hasId; simpl; now rewrite T. }
  rewrite Q; destruct (postQueryFn d (Some i)); reflexivity.
Qed.

(** C3.  For an identifier that no post of the store has, the post query
    fails (the store has no single row to give) and the page shows the
    not-found view; for the identifier of a published post the query
    resolves to a view of that post, whose status is published, and the
    page shows the article. *)
Theorem loadPost_not_found_or_published (d : db) (user : option Auth.user) :
  (forall i : Id, truthy i = true ->
             (forall p, In p (posts d) -> Post.id p <> i) ->
             postQueryFn d (Some i) = Rejected (StoreError PGRST116)
             /\ render (mount d (Some i) user) = PostNotFound)
  /\ (forall p, posts_keyed d -> In p (posts d) ->
                truthy (Post.id p) = true -> Post.status p = published ->
                exists view a,
                  postQueryFn d (Some (Post.id p)) = Resolved view
                  /\ columns (Spread.base view) = p
                  /\ Post.status (columns (Spread.base view)) = published
                  /\ render (mount d (Some (Post.id p)) user) = Article a
                  /\ heading a = Post.title p).
Proof.
  split.
  - intros i T H; rewrite (render_mount d i user T).
    now rewrite (postQueryFn_missing d i T H).
  - intros p K HIn T P.
    rewrite (render_mount d (Post.id p) user T).
    rewrite (postQueryFn_found d p K HIn T).
    eexists _, _; repeat split; assumption.
Qed.

Lemma loadPost_not_found_or_published_witness :
  (postQueryFn Examples.store (Some (lit "p9")) = Rejected (StoreError PGRST116)
   /\ render (mount Examples.store (Some (lit "p9")) (Some Examples.reader))
      = PostNotFound)
  /\ exists view,
       postQueryFn Examples.store (Some (lit "p1")) = Resolved view
       /\ Post.status (columns (Spread.base view)) = published.
Proof.
  pose proof (loadPost_not_found_or_published Examples.store
                (Some Examples.reader)) as [Hmiss Hpub].
  split.
  - apply Hmiss; [reflexivity|].
    simpl; intros p [<- | [<- | [<- | []]]]; discriminate.
  - destruct (Hpub Examples.kittens) as (view & a & Q & _ & S & _).
    + unfold posts_keyed; distinct_keys.
    + simpl; auto.
    + reflexivity.
    + reflexivity.
    + exists view; split; [exact Q | exact S].
Defined.

(** *** Authors without a profile *)

Lemma in_filter_none (d : db) (u : Id) :
  (forall pr, In pr (profiles d) -> Profile.user_id pr <> u) ->
  eq_ Profile.user_id u (profiles d) = [].
Proof.
  intros H; unfold eq_; apply filter_none.
  intros pr Hpr; apply eqb_neq; auto.
Qed.

Lemma find_none (A : Type) (f : A -> bool) (l : list A) :
  (forall x, In x l -> f x = false) -> find f l = None.
Proof.
  induction l as [|x l IH]; simpl; [reflexivity|].
  intros H; rewrite (H x (or_introl eq_refl)); auto.
Qed.

Lemma commentsQueryFn_resolves (d : db) (i : Id) :
  truthy i = true ->
  exists cs,
    commentsQueryFn d (Some i) = Resolved cs
    /\ forall c, In c cs ->
         Spread.profiles c
         = find (fun profile =>
                   eqb (Profile.user_id profile)
                       (Comment.user_id (Spread.base c)))
             (in_ Profile.user_id
                (distinct (map Comment.user_id (commentRows d i)))
                (profiles d)).
Proof.
  intros T; unfold commentsQueryFn; rewrite T; simpl.
  destruct (List.length _ =? 0)%nat.
  - exists []; split; [reflexivity | intros c []].
  - eexists; split; [reflexivity|].
    intros c Hc; apply in_map_iff in Hc as (c0 & <- & _); reflexivity.
Qed.

(** C6.  When no profile row matches the author of a post, the post
    query still resolves, with a null [profiles], and the article names the
    author "Anonymous"; the comments query always resolves, and the card of
    a comment whose author has no profile row names them "Anonymous".  The
    post query resolves whatever the profiles table holds. *)
Theorem anonymous_without_profile (d : db) (user : option Auth.user) :
  (forall p, posts_keyed d -> In p (posts d) ->
             truthy (Post.id p) = true ->
             (forall pr, In pr (profiles d) ->
                         Profile.user_id pr <> Post.user_id p) ->
             exists view a,
               postQueryFn d (Some (Post.id p)) = Resolved view
               /\ Spread.profiles view = None
               /\ render (mount d (Some (Post.id p)) user) = Article a
               /\ authorName a = lit "Anonymous")
  /\ (forall i : Id,
        exists cs,
          commentsQueryFn d (Some i) = Resolved cs
          /\ forall c, In c cs ->
               (forall pr, In pr (profiles d) ->
                  Profile.user_id pr <> Comment.user_id (Spread.base c)) ->
               Spread.profiles c = None
               /\ cardAuthor (commentCard c) = lit "Anonymous")
  /\ (forall p, posts_keyed d -> In p (posts d) ->
                truthy (Post.id p) = true ->
                exists view, postQueryFn d (Some (Post.id p)) = Resolved view).
Proof.
  split; [|split].
  - intros p K HIn T NP.
    rewrite (render_mount d (Post.id p) user T).
    rewrite (postQueryFn_found d p K HIn T).
    unfold authorRows; rewrite (in_filter_none d (Post.user_id p) NP).
    eexists _, _; repeat split.
  - intros i; destruct (truthy i) eqn:T.
    + destruct (commentsQueryFn_resolves d i T) as (cs & Q & P).
      exists cs; split; [exact Q|].
      intros c Hc NP.
      assert (E : Spread.profiles c = None).
      { rewrite (P c Hc); apply find_none.
        intros pr Hpr; apply filter_In in Hpr as [Hpr _].
        apply eqb_neq; auto. }
      split; [exact E|]; unfold commentCard; now rewrite E.
    + exists []; split; [|intros c []].
      unfold commentsQueryFn; now rewrite T.
  - intros p K HIn T; rewrite (postQueryFn_found d p K HIn T); eauto.
Qed.

Lemma anonymous_without_profile_witness :
  (exists a,
     render Examples.page = Article a /\ authorName a = lit "Anonymous")
  /\ exists c1 c2,
       commentsQueryFn Examples.store (Some (lit "p1")) = Resolved [c1; c2]
       /\ Comment.user_id (Spread.base c2) = lit "u1"
       /\ cardAuthor (commentCard c2) = lit "Anonymous".
Proof.
  pose proof (anonymous_without_profile Examples.store (Some Examples.reader))
    as (Hpost & Hcomments & _).
  split.
  - destruct (Hpost Examples.kittens) as (view & a & _ & _ & R & A).
    + unfold posts_keyed; distinct_keys.
    + simpl; auto.
    + reflexivity.
    + simpl; intros pr [<- | [<- | []]]; discriminate.
    + exists a; split; [exact R | exact A].
  - destruct (Hcomments (lit "p1")) as (cs & Q & P).
    vm_compute in Q; injection Q as <-.
    eexists _, _; split; [reflexivity|]; split; [reflexivity|].
    apply P; [simpl; auto|].
    simpl; intros pr [<- | [<- | []]]; discriminate.
Defined.

(** *** Likes *)

Lemma isLikedQueryFn_value (d : db) (i : Id) (u : Auth.user) :
  truthy i = true -> likes_unique d ->
  isLikedQueryFn d (Some i) (Some u) = Resolved (hasLike d i (Auth.id u)).
Proof.
  intros T U; unfold isLikedQueryFn, hasLike; rewrite T; simpl.
  rewrite two_filters.
  destruct (existsb (likeOf i (Auth.id u)) (likes d)) eqn:E.
  - destruct (single_like_ok i (Auth.id u) (likes d) U E) as [x ->].
    reflexivity.
  - apply existsb_filter_nil in E; now rewrite E.
Qed.

Section SignedIn.

Variables (pg : page) (u : Auth.user) (i : Id).
Hypothesis Huser : user pg = Some u.
Hypothesis Hid : id pg = Some i.
Hypothesis Htruthy : truthy i = true.
Hypothesis Hunique : likes_unique (remote pg).
Hypothesis Hfresh : likes_fresh pg.

Lemma isLiked_value : isLiked pg = hasLike (remote pg) i (Auth.id u).
Proof.
  destruct Hfresh as [HL _]; unfold isLiked; rewrite HL, Huser, Hid.
  unfold fetchLike, fetch, hasId, hasUser; rewrite Htruthy; cbn [andb].
  now rewrite isLikedQueryFn_value.
Qed.

Lemma likesCount_value :
  likesCount pg = count (eq_ Like.post_id i (likes (remote pg))).
Proof.
  destruct Hfresh as [_ HC]; unfold likesCount; rewrite HC, Hid.
  unfold fetchLikesCount, likesCountQueryFn; simpl; now rewrite Htruthy.
Qed.

Abbreviation toggled n := (toggledStore (remote pg) i (Auth.id u) n).

Lemma toggleLike_step (n : Id) :
  toggleLike n pg =
  {| remote := toggled n; id := id pg; user := user pg;
     newComment := newComment pg; postQ := postQ pg;
     commentsQ := commentsQ pg;
     likeQ := fetchLike (toggled n) (id pg) (user pg);
     likesCountQ := fetchLikesCount (toggled n) (id pg);
     toasts := toasts pg |}.
Proof.
  unfold toggleLike, toggledStore; rewrite isLiked_value.
  rewrite Huser at 1; rewrite Huser at 1; rewrite Hid at 1.
  unfold likeMutationFn; rewrite Htruthy; simpl.
  destruct (hasLike (remote pg) i (Auth.id u)) eqn:L; [reflexivity|].
  now rewrite (insert_like_absent n i (Auth.id u) (remote pg) L).
Qed.

Lemma toggled_likes (n : Id) :
  likes (toggled n) =
  if hasLike (remote pg) i (Auth.id u)
  then filter (fun l => negb (likeOf i (Auth.id u) l)) (likes (remote pg))
  else likes (remote pg)
       ++ [{| Like.id := n; Like.post_id := i; Like.user_id := Auth.id u |}].
Proof.
  unfold toggledStore;
    destruct (hasLike (remote pg) i (Auth.id u)) eqn:L; [reflexivity|].
  now rewrite (insert_like_absent n i (Auth.id u) (remote pg) L).
Qed.

Lemma toggled_unique (n : Id) : likes_unique (toggled n).
Proof.
  unfold likes_unique; rewrite toggled_likes.
  destruct (hasLike (remote pg) i (Auth.id u)) eqn:L.
  - now apply NoDup_map_filter.
  - now apply append_like_unique.
Qed.

Lemma eqb_refl_like (n : Id) :
  likeOf i (Auth.id u)
    {| Like.id := n; Like.post_id := i; Like.user_id := Auth.id u |} = true.
Proof. unfold likeOf; simpl; now rewrite !eqb_refl. Qed.

Lemma toggled_hasLike (n : Id) :
  hasLike (toggled n) i (Auth.id u) = negb (hasLike (remote pg) i (Auth.id u)).
Proof.
  unfold hasLike at 1; rewrite toggled_likes.
  destruct (hasLike (remote pg) i (Auth.id u)) eqn:L; simpl.
  - apply existsb_filter_negb.
  - rewrite existsb_app; simpl; rewrite eqb_refl_like.
    now rewrite orb_true_r.
Qed.

Lemma toggled_count (n : Id) :
  (List.length (eq_ Like.post_id i (likes (toggled n)))
   + (if hasLike (remote pg) i (Auth.id u) then 1 else 0)
   = List.length (eq_ Like.post_id i (likes (remote pg)))
     + (if hasLike (remote pg) i (Auth.id u) then 0 else 1))%nat.
Proof.
  rewrite toggled_likes.
  destruct (hasLike (remote pg) i (Auth.id u)) eqn:L.
  - rewrite (count_split i (Auth.id u) (likes (remote pg))).
    destruct (single_like_ok i (Auth.id u) _ Hunique L) as [x Hx].
    pose proof (unique_at_most_one i (Auth.id u) _ Hunique) as LE.
    destruct (filter (likeOf i (Auth.id u)) (likes (remote pg)))
      as [|y [|z r]]; simpl in *; try discriminate; lia.
  - unfold eq_; rewrite filter_app, length_app; simpl.
    now rewrite eqb_refl.
Qed.

End SignedIn.

(** A page whose queries have just settled holds the like state and the
    like count of the store. *)
Lemma mount_fresh (d : db) (i : option Id) (user : option Auth.user) :
  likes_fresh (mount d i user).
Proof. split; reflexivity. Qed.

(** A click leaves the cache fresh, the session and the route as they
    were, and the likes unique. *)
Lemma toggleLike_keeps (pg : page) (u : Auth.user) (i n : Id) :
  user pg = Some u -> id pg = Some i -> truthy i = true ->
  likes_unique (remote pg) -> likes_fresh pg ->
  remote (toggleLike n pg) = toggledStore (remote pg) i (Auth.id u) n
  /\ user (toggleLike n pg) = Some u
  /\ id (toggleLike n pg) = Some i
  /\ likes_unique (remote (toggleLike n pg))
  /\ likes_fresh (toggleLike n pg).
Proof.
  intros Hu Hi T U F.
  rewrite (toggleLike_step pg u i Hu Hi T U F n); simpl.
  repeat split; try assumption.
  now apply toggled_unique.
Qed.

(** Two clicks, each followed by its refetch, on a page whose like queries
    have settled. *)
Lemma toggleLike_twice (pg : page) (u : Auth.user) (i n1 n2 : Id) :
  user pg = Some u -> id pg = Some i -> truthy i = true ->
  likes_unique (remote pg) -> likes_fresh pg ->
  let once := toggleLike n1 pg in
  let twice := toggleLike n2 once in
  likes (remote once)
  = (if hasLike (remote pg) i (Auth.id u)
     then filter (fun l => negb (likeOf i (Auth.id u) l)) (likes (remote pg))
     else likes (remote pg)
          ++ [{| Like.id := n1; Like.post_id := i;
                 Like.user_id := Auth.id u |}])
  /\ isLiked once = negb (isLiked pg)
  /\ isLiked twice = isLiked pg
  /\ likesCount twice = likesCount pg
  /\ hasLike (remote twice) i (Auth.id u) = hasLike (remote pg) i (Auth.id u)
  /\ likesCountQueryFn (remote twice) (Some i)
     = likesCountQueryFn (remote pg) (Some i).
Proof.
  intros Hu Hi T U F once twice.
  destruct (toggleLike_keeps pg u i n1 Hu Hi T U F)
    as (R1 & Hu1 & Hi1 & U1 & F1).
  fold once in R1, Hu1, Hi1, U1, F1.
  destruct (toggleLike_keeps once u i n2 Hu1 Hi1 T U1 F1)
    as (R2 & Hu2 & Hi2 & U2 & F2).
  fold twice in R2, Hu2, Hi2, U2, F2.
  pose proof (toggled_hasLike pg u i n1) as H1.
  pose proof (toggled_hasLike once u i n2) as H2.
  rewrite <- R1 in H1; rewrite <- R2, H1, negb_involutive in H2.
  assert (C : likesCount twice = likesCount pg).
  { rewrite (likesCount_value twice i Hi2 T F2).
    rewrite (likesCount_value pg i Hi T F).
    pose proof (toggled_count pg u i U n1) as C1.
    pose proof (toggled_count once u i U1 n2) as C2.
    rewrite <- R1 in C1; rewrite <- R2, H1 in C2.
    unfold count; f_equal.
    destruct (hasLike (remote pg) i (Auth.id u)); simpl in *; lia. }
  repeat split.
  - rewrite R1; apply toggled_likes.
  - rewrite (isLiked_value once u i Hu1 Hi1 T U1 F1).
    now rewrite (isLiked_value pg u i Hu Hi T U F).
  - rewrite (isLiked_value twice u i Hu2 Hi2 T U2 F2).
    now rewrite (isLiked_value pg u i Hu Hi T U F).
  - exact C.
  - exact H2.
  - rewrite (likesCount_value twice i Hi2 T F2) in C.
    rewrite (likesCount_value pg i Hi T F) in C.
    unfold likesCountQueryFn; rewrite T; simpl; now rewrite C.
Qed.

(** A click and the refetch that follows it make the fused step. *)
Lemma press_then_settle (pg : page) (u : Auth.user) (i n : Id) :
  user pg = Some u -> id pg = Some i -> truthy i = true ->
  likes_unique (remote pg) -> likes_fresh pg ->
  settleLikes (pressLike n pg) = toggleLike n pg.
Proof.
  intros Hu Hi T U F.
  rewrite (toggleLike_step pg u i Hu Hi T U F n).
  unfold settleLikes, pressLike, toggledStore.
  rewrite (isLiked_value pg u i Hu Hi T U F).
  destruct pg as [d pid pu nc pq cq lq lcq ts]; cbn in Hu, Hi |- *.
  subst pid pu; unfold likeMutationFn; rewrite T; cbn [negb].
  destruct (hasLike d i (Auth.id u)) eqn:L; [reflexivity|].
  now rewrite (insert_like_absent n i (Auth.id u) d L).
Qed.

(** C1, as the page has it.  For a signed-in user on a post page whose
    like queries have settled, over a likes table with at most one like
    per post and user, and with the refetch that follows a click settled
    before the next click: a click on the heart deletes the user's like of
    the post if there is one and inserts one otherwise, and after two
    clicks the like state and the like count, shown and stored, are the
    original ones. *)
Theorem toggle_twice_when_settled (pg : page) (u : Auth.user)
  (i n1 n2 : Id) :
  user pg = Some u -> id pg = Some i -> truthy i = true ->
  likes_unique (remote pg) -> likes_fresh pg ->
  let once := settleLikes (pressLike n1 pg) in
  let twice := settleLikes (pressLike n2 once) in
  likes (remote (pressLike n1 pg))
  = (if hasLike (remote pg) i (Auth.id u)
     then filter (fun l => negb (likeOf i (Auth.id u) l)) (likes (remote pg))
     else likes (remote pg)
          ++ [{| Like.id := n1; Like.post_id := i;
                 Like.user_id := Auth.id u |}])
  /\ isLiked once = negb (isLiked pg)
  /\ isLiked twice = isLiked pg
  /\ likesCount twice = likesCount pg
  /\ hasLike (remote twice) i (Auth.id u) = hasLike (remote pg) i (Auth.id u)
  /\ likesCountQueryFn (remote twice) (Some i)
     = likesCountQueryFn (remote pg) (Some i).
Proof.
  intros Hu Hi T U F once twice; subst twice once.
  destruct (toggleLike_keeps pg u i n1 Hu Hi T U F)
    as (_ & Hu1 & Hi1 & U1 & F1).
  pose proof (toggleLike_twice pg u i n1 n2 Hu Hi T U F) as H.
  cbv zeta in H.
  rewrite <- (press_then_settle pg u i n1 Hu Hi T U F) in Hu1, Hi1, U1, F1, H.
  rewrite (press_then_settle _ u i n2 Hu1 Hi1 T U1 F1).
  exact H.
Qed.

Lemma toggle_twice_when_settled_witness :
  likes_unique (remote Examples.page)
  /\ likes_fresh Examples.page
  /\ isLiked (settleLikes
                (pressLike (lit "l4")
                   (settleLikes (pressLike (lit "l3") Examples.page))))
     = isLiked Examples.page
  /\ likesCount (settleLikes
                   (pressLike (lit "l4")
                      (settleLikes (pressLike (lit "l3") Examples.page))))
     = likesCount Examples.page.
Proof.
  assert (U : likes_unique (remote Examples.page)).
  { unfold likes_unique; distinct_keys. }
  assert (F : likes_fresh Examples.page) by (split; reflexivity).
  split; [exact U|]; split; [exact F|].
  pose proof (toggle_twice_when_settled Examples.page Examples.reader
                (lit "p1") (lit "l3") (lit "l4") eq_refl eq_refl eq_refl U F)
    as H.
  cbv zeta in H; split; apply H.
Defined.

(** Two clicks with no refetch between them: the first deletes the
    reader's like; at the second the store holds no like of theirs, yet
    none is inserted, because the page still renders with the like state
    it had; when the refetch settles, the like state and the like count
    are not the original ones. *)
Lemma second_click_before_refetch :
  isLiked Examples.page = true
  /\ likesCount Examples.page = 2%N
  /\ hasLike (remote Examples.page) (lit "p1") (lit "u1") = true
  /\ hasLike (remote (pressLike (lit "l3") Examples.page))
       (lit "p1") (lit "u1") = false
  /\ isLiked (pressLike (lit "l3") Examples.page) = true
  /\ likes (remote (pressLike (lit "l4")
                      (pressLike (lit "l3") Examples.page)))
     = likes (remote (pressLike (lit "l3") Examples.page))
  /\ isLiked (settleLikes
                (pressLike (lit "l4") (pressLike (lit "l3") Examples.page)))
     = false
  /\ likesCount (settleLikes
                   (pressLike (lit "l4")
                      (pressLike (lit "l3") Examples.page)))
     = 1%N.
Proof. repeat split. Qed.

(** *** Comments *)

Lemma truthy_trim (s : str) : truthy (trim s) = negb (isBlank s).
Proof.
  destruct (isBlank s) eqn:B; simpl.
  - apply trim_nil_iff in B; now rewrite B.
  - apply truthy_nonempty; intros E; apply trim_nil_iff in E.
    unfold isBlank in B; congruence.
Qed.

(** The store after one comment has been added to it. *)
Lemma handleAddComment_signed_in (pg : page) (u : Auth.user) (i n : Id)
  (now : N) :
  user pg = Some u -> id pg = Some i -> truthy i = true ->
  isBlank (newComment pg) = false ->
  handleAddComment n now pg =
  let d' := snd (insert_comment n now i (Auth.id u) (trim (newComment pg))
                   (remote pg)) in
  {| remote := d'; id := id pg; user := user pg; newComment := [];
     postQ := postQ pg; commentsQ := fetchComments d' (id pg);
     likeQ := likeQ pg; likesCountQ := likesCountQ pg;
     toasts := toasts pg
               ++ [{| Toast.title := lit "Comment added!";
                      Toast.description :=
                        Some (lit "Your comment has been posted successfully.");
                      Toast.variant := Toast.default |}] |}.
Proof.
  intros Hu Hi T B; unfold handleAddComment.
  rewrite truthy_trim, B; simpl.
  rewrite Hu at 1; rewrite Hi at 1.
  unfold commentMutationFn; rewrite T; reflexivity.
Qed.

(** C2, as the page has it.  With an empty or white-space-only comment box
    [handleAddComment] changes nothing: no row is inserted, nothing is
    thrown and no notification is raised.  With anything else in the box, a
    signed-in user and a post identifier, exactly one row is added to the
    comments table and nothing else in the store changes; without a user
    or an identifier nothing is inserted and the error is notified. *)
Theorem handleAddComment_cases (pg : page) (n : Id) (now : N) :
  let pg' := handleAddComment n now pg in
  if isBlank (newComment pg) then pg' = pg
  else
    match user pg, id pg with
    | Some u, Some i =>
        if truthy i then
          remote pg' =
          {| posts := posts (remote pg);
             Store.categories := Store.categories (remote pg);
             profiles := profiles (remote pg);
             Store.comments :=
               Store.comments (remote pg)
               ++ [{| Comment.id := n; Comment.post_id := i;
                      Comment.user_id := Auth.id u;
                      Comment.content := trim (newComment pg);
                      Comment.created_at := now |}];
             likes := likes (remote pg) |}
        else remote pg' = remote pg /\ notifiesError pg pg'
    | _, _ => remote pg' = remote pg /\ notifiesError pg pg'
    end.
Proof.
  intros pg'; subst pg'.
  destruct (isBlank (newComment pg)) eqn:B.
  - unfold handleAddComment; now rewrite truthy_trim, B.
  - destruct (user pg) as [u|] eqn:Hu, (id pg) as [i|] eqn:Hi.
    + destruct (truthy i) eqn:T.
      * now rewrite (handleAddComment_signed_in pg u i n now Hu Hi T B).
      * unfold handleAddComment; rewrite truthy_trim, B, Hu, Hi; simpl.
        rewrite T; simpl; split; [reflexivity|].
        eexists; simpl; repeat split.
    + unfold handleAddComment; rewrite truthy_trim, B, Hu, Hi; simpl.
      split; [reflexivity|]; eexists; simpl; repeat split.
    + unfold handleAddComment; rewrite truthy_trim, B, Hu; simpl.
      split; [reflexivity|]; eexists; simpl; repeat split.
    + unfold handleAddComment; rewrite truthy_trim, B, Hu; simpl.
      split; [reflexivity|]; eexists; simpl; repeat split.
Qed.

(** Three spaces in the comment box: nothing is inserted, and no error is
    raised either. *)
Lemma blank_comment_raises_nothing :
  isBlank (newComment Examples.blankDraft) = true
  /\ handleAddComment (lit "k3") 500 Examples.blankDraft = Examples.blankDraft
  /\ toasts (handleAddComment (lit "k3") 500 Examples.blankDraft) = []
  /\ ~ notifiesError Examples.blankDraft
         (handleAddComment (lit "k3") 500 Examples.blankDraft).
Proof.
  repeat split.
  intros (t & E & _); simpl in E.
  now destruct (toasts Examples.page); discriminate.
Qed.

(** C8.  The content of the row a comment inserts is what [trim] leaves of
    the text in the box: the text is white space, then the content, then
    white space, and the content neither begins nor ends with white
    space. *)
Theorem stored_comment_is_trimmed (pg : page) (u : Auth.user) (i n : Id)
  (now : N) :
  user pg = Some u -> id pg = Some i -> truthy i = true ->
  isBlank (newComment pg) = false ->
  exists row pre suf,
    Store.comments (remote (handleAddComment n now pg))
    = Store.comments (remote pg) ++ [row]
    /\ Comment.content row = trim (newComment pg)
    /\ newComment pg = pre ++ Comment.content row ++ suf
    /\ isBlank pre = true /\ isBlank suf = true
    /\ Comment.content row <> []
    /\ (forall c r, Comment.content row = c :: r -> isWhiteSpace c = false)
    /\ (forall r c, Comment.content row = r ++ [c] -> isWhiteSpace c = false).
Proof.
  intros Hu Hi T B.
  rewrite (handleAddComment_signed_in pg u i n now Hu Hi T B); simpl.
  destruct (strip_split _ isWhiteSpace (newComment pg))
    as (pre & suf & E & Hpre & Hsuf).
  eexists _, pre, suf; split; [reflexivity|]; simpl.
  repeat split; try assumption.
  - intros E0; apply trim_nil_iff in E0; unfold isBlank in B; congruence.
  - intros c r H; exact (strip_first _ _ _ _ _ H).
  - intros r c H; exact (strip_last _ _ _ _ _ H).
Qed.

Lemma stored_comment_is_trimmed_witness :
  isBlank (newComment Examples.paddedDraft) = false
  /\ exists row,
       Store.comments
         (remote (handleAddComment (lit "k3") 500 Examples.paddedDraft))
       = Store.comments (remote Examples.paddedDraft) ++ [row]
       /\ Comment.content row = lit "Lovely!".
Proof.
  split; [reflexivity|].
  destruct (stored_comment_is_trimmed Examples.paddedDraft Examples.reader
              (lit "p1") (lit "k3") 500 eq_refl eq_refl eq_refl eq_refl)
    as (row & _ & _ & E & C & _).
  exists row; split; [exact E | exact C].
Defined.

End PostDetailFacts.

(** ** The index page *)

Module IndexFacts.

Import Js JsFacts Store StoreFacts Async Index.

(** *** Ordering *)

Section Order.

Variable A : Type.
Variable key : A -> option N.

Lemma descb_total (x y : option N) : descb x y = false -> descb y x = true.
Proof.
  destruct x as [x|], y as [y|]; simpl; try easy.
  rewrite N.leb_gt, N.leb_le; lia.
Qed.

Lemma insert_desc_perm (r : A) (l : list A) :
  Permutation (insert_desc key r l) (r :: l).
Proof.
  induction l as [|x l IH]; simpl; [reflexivity|].
  destruct (descb (key r) (key x)); [reflexivity|].
  rewrite IH; apply perm_swap.
Qed.

Lemma order_desc_perm (l : list A) : Permutation (order_desc key l) l.
Proof.
  induction l as [|x l IH]; simpl; [reflexivity|].
  fold (order_desc key l); rewrite insert_desc_perm; now constructor.
Qed.

Lemma insert_desc_sorted (r : A) (l : list A) :
  Sorted (before key) l -> Sorted (before key) (insert_desc key r l).
Proof.
  induction 1 as [|x l S IH H]; simpl; [repeat constructor|].
  destruct (descb (key r) (key x)) eqn:D.
  - repeat constructor; assumption.
  - constructor; [assumption|].
    apply descb_total in D.
    destruct l as [|y l]; simpl; [now constructor|].
    destruct (descb (key r) (key y)); constructor;
      [exact D | now inversion H].
Qed.

Lemma order_desc_sorted (l : list A) : Sorted (before key) (order_desc key l).
Proof.
  induction l as [|x l IH]; simpl; [constructor|].
  now apply insert_desc_sorted.
Qed.

Lemma order_desc_In (l : list A) (x : A) : In x (order_desc key l) <-> In x l.
Proof.
  split; apply Permutation_in;
    [apply order_desc_perm | symmetry; apply order_desc_perm].
Qed.

End Order.

(** *** Patterns *)

Lemma isMeta_false (c : ascii) :
  isMeta c = false ->
  Ascii.eqb c "%" = false /\ Ascii.eqb c "_" = false
  /\ Ascii.eqb c "\" = false /\ Ascii.eqb c "*" = false.
Proof.
  unfold isMeta; intros H.
  repeat (apply orb_false_iff in H as [H ?]); auto.
Qed.

Lemma like_plain_cons (c : ascii) (pat txt : str) :
  isMeta c = false ->
  like (c :: pat) txt
  = match txt with
    | [] => false
    | d :: txt' => Ascii.eqb c d && like pat txt'
    end.
Proof.
  intros M; apply isMeta_false in M as (M1 & M2 & M3 & _).
  simpl; now rewrite M1, M2, M3.
Qed.

Lemma like_percent (pat txt : str) :
  like ("%"%char :: pat) txt
  = like pat txt
    || match txt with
       | [] => false
       | _ :: txt' => like ("%"%char :: pat) txt'
       end.
Proof. destruct txt; reflexivity. Qed.

Lemma like_percent_last (txt : str) : like ["%"%char] txt = true.
Proof.
  induction txt as [|d txt IH]; [reflexivity|].
  rewrite like_percent; simpl like at 1; exact IH.
Qed.

Lemma like_plain_prefix (q txt : str) :
  plain q = true -> like (q ++ ["%"%char]) txt = startsWith q txt.
Proof.
  revert txt; induction q as [|c q IH]; intros txt P.
  - simpl app; rewrite like_percent_last; now destruct txt.
  - simpl in P; apply andb_true_iff in P as [Pc Pq].
    apply negb_true_iff in Pc.
    simpl app; rewrite (like_plain_cons c _ txt Pc).
    destruct txt as [|d txt]; [reflexivity|].
    simpl; now rewrite IH.
Qed.

(** A pattern [%q%] whose [q] has no pattern character matches the texts
    that contain [q]. *)
Lemma like_contains (q txt : str) :
  plain q = true ->
  like ("%"%char :: q ++ ["%"%char]) txt = includes txt q.
Proof.
  intros P; induction txt as [|d txt IH].
  - rewrite like_percent, like_plain_prefix by assumption.
    simpl; now rewrite orb_false_r.
  - rewrite like_percent, like_plain_prefix, IH by assumption.
    reflexivity.
Qed.

Lemma lowerUnit_meta (c : ascii) : isMeta (lowerUnit c) = isMeta c.
Proof. destruct c as [[] [] [] [] [] [] [] []]; reflexivity. Qed.

Lemma toLowerCase_plain (q : str) : plain (toLowerCase q) = plain q.
Proof.
  unfold plain, toLowerCase.
  induction q as [|c q IH]; simpl; [reflexivity|].
  now rewrite lowerUnit_meta, IH.
Qed.

Lemma star_to_percent_plain (q : str) :
  plain q = true -> map star_to_percent q = q.
Proof.
  induction q as [|c q IH]; simpl; [reflexivity|].
  intros P; apply andb_true_iff in P as [Pc Pq].
  apply negb_true_iff, isMeta_false in Pc as (_ & _ & _ & S).
  unfold star_to_percent at 1; rewrite S; now rewrite IH.
Qed.

(** With a search text free of pattern characters the [ilike] condition
    of the posts query is containment of the text, ignoring case. *)
Lemma ilike_pattern_plain (q txt : str) :
  plain q = true ->
  ilike (pattern q) txt = includes (toLowerCase txt) (toLowerCase q).
Proof.
  intros P; unfold ilike, pattern; simpl.
  rewrite map_app; simpl.
  rewrite (star_to_percent_plain q P).
  unfold toLowerCase at 1; rewrite map_app; simpl.
  change (lowerUnit "%") with "%"%char.
  apply like_contains; fold (toLowerCase q); now rewrite toLowerCase_plain.
Qed.

(** *** The rows of the listing *)

Lemma rows_In (d : db) (q c : str) (p : Post.t) :
  In p (rows d q c) <-> In p (posts d) /\ matches q c p = true.
Proof. unfold rows; rewrite order_desc_In; apply filter_In. Qed.

Lemma rows_sorted (d : db) (q c : str) :
  Sorted (before Post.published_at) (rows d q c).
Proof. apply order_desc_sorted. Qed.

Lemma status_eqb_eq (a b : status) : status_eqb a b = true <-> a = b.
Proof. destruct a, b; simpl; split; congruence. Qed.

(** What the listing holds when the search text has no pattern
    character: the published posts, newest first, that contain the text in
    title or content if there is a text, and are of the category if there
    is one. *)
Lemma rows_plain (d : db) (q c : str) (p : Post.t) :
  plain q = true ->
  (In p (rows d q c) <->
   In p (posts d)
   /\ Post.status p = published
   /\ (q = [] \/ includes (toLowerCase (Post.title p)) (toLowerCase q) = true
       \/ includes (toLowerCase (Post.content p)) (toLowerCase q) = true)
   /\ (c = [] \/ Post.category_id p = Some c)).
Proof.
  intros P; rewrite rows_In; unfold matches.
  rewrite !andb_true_iff, status_eqb_eq.
  rewrite !(ilike_pattern_plain q _ P).
  assert (Hq : (if truthy q
                then includes (toLowerCase (Post.title p)) (toLowerCase q)
                     || includes (toLowerCase (Post.content p)) (toLowerCase q)
                else true) = true
               <-> q = []
                   \/ includes (toLowerCase (Post.title p)) (toLowerCase q) = true
                   \/ includes (toLowerCase (Post.content p)) (toLowerCase q)
                      = true).
  { destruct q; simpl truthy; cbv iota; [tauto|].
    rewrite orb_true_iff; intuition discriminate. }
  assert (Hc : (if truthy c
                then match Post.category_id p with
                     | Some x => eqb x c
                     | None => false
                     end
                else true) = true
               <-> c = [] \/ Post.category_id p = Some c).
  { destruct c as [|a c]; simpl truthy; cbv iota; [tauto|].
    destruct (Post.category_id p) as [x|].
    - rewrite eqb_eq; split; [intros ->; now right|].
      intros [E | [= ->]]; [discriminate | reflexivity].
    - intuition discriminate. }
  rewrite Hq, Hc; tauto.
Qed.

(** C4.  The search text goes into the pattern of the [ilike]
    conditions as it was typed, so its pattern characters act as wild
    cards: for the text "d_gs" the listing holds the post titled "Dogs",
    although neither its title nor its content contains "d_gs" in any
    case. *)
Theorem search_text_is_a_pattern :
  exists ps,
    postsQueryFn Examples.store (lit "d_gs") [] = Resolved ps
    /\ map (fun v => id (Spread.base v)) ps = [Post.id Examples.dogs]
    /\ includes (toLowerCase (Post.title Examples.dogs))
         (toLowerCase (lit "d_gs")) = false
    /\ includes (toLowerCase (Post.content Examples.dogs))
         (toLowerCase (lit "d_gs")) = false.
Proof. eexists; repeat split. Qed.

(** *** Enrichment with profiles *)

Lemma distinct_In (l : list str) (x : str) : In x (distinct l) <-> In x l.
Proof.
  induction l as [|y l IH]; simpl; [tauto|].
  rewrite filter_In, IH, negb_true_iff, eqb_neq.
  destruct (list_eq_dec ascii_dec y x) as [-> | N]; [tauto|].
  split; [tauto | intros [E | H]; [tauto | right; split; congruence]].
Qed.

Lemma distinct_nil (l : list str) : distinct l = [] -> l = [].
Proof. destruct l; [reflexivity | discriminate]. Qed.

Lemma find_filter (A : Type) (f g : A -> bool) (l : list A) :
  (forall x, f x = true -> g x = true) -> find f (filter g l) = find f l.
Proof.
  intros H; induction l as [|x l IH]; simpl; [reflexivity|].
  destruct (g x) eqn:G; simpl.
  - now rewrite IH.
  - destruct (f x) eqn:F; [|exact IH].
    rewrite (H x F) in G; discriminate.
Qed.

(** Looking an author up among the profiles fetched for a batch is
    looking them up in the profiles table. *)
Lemma find_profile (d : db) (ids : list Id) (u : Id) :
  In u ids ->
  find (fun profile => eqb (Profile.user_id profile) u)
    (in_ Profile.user_id (distinct ids) (profiles d))
  = find (fun profile => eqb (Profile.user_id profile) u) (profiles d).
Proof.
  intros HIn; unfold in_; apply find_filter.
  intros pr E; apply eqb_eq in E; rewrite E.
  now apply arrayIncludes_In, distinct_In.
Qed.

Lemma Forall_map_merge (R : Type) (uid : R -> Id) (d : db) (rs basis : list R) :
  incl rs basis ->
  Forall
    (fun e : Spread.withProfiles R Profile.t =>
       Spread.profiles e
       = find (fun profile => eqb (Profile.user_id profile)
                                  (uid (Spread.base e)))
           (profiles d))
    (map (fun r =>
            {| Spread.base := r;
               Spread.profiles :=
                 find (fun profile => eqb (Profile.user_id profile) (uid r))
                   (in_ Profile.user_id (distinct (map uid basis))
                      (profiles d)) |})
       rs).
Proof.
  intros I; apply Forall_forall; intros e He.
  apply in_map_iff in He as (r & <- & Hr); simpl.
  apply find_profile, in_map, I, Hr.
Qed.

(** C9.  The comments query and the posts query answer with the rows the
    store gave them, as many and in the same order, each extended with a
    [profiles] field (the first profile row of the row's author, or null)
    and otherwise unchanged. *)
Theorem enrichment_keeps_rows (d : db) (i : Id) (q c : str) :
  (exists cs,
     PostDetail.commentsQueryFn d (Some i) = Resolved cs
     /\ map (@Spread.base _ _) cs
        = (if truthy i then PostDetail.commentRows d i else [])
     /\ List.length cs
        = List.length (if truthy i then PostDetail.commentRows d i else [])
     /\ Forall
          (fun e =>
             Spread.profiles e
             = find (fun profile =>
                       eqb (Profile.user_id profile)
                           (Comment.user_id (Spread.base e)))
                 (profiles d))
          cs)
  /\ (exists ps,
        postsQueryFn d q c = Resolved ps
        /\ map (@Spread.base _ _) ps = map (select d) (rows d q c)
        /\ List.length ps = List.length (rows d q c)
        /\ Forall
             (fun e =>
                Spread.profiles e
                = find (fun profile =>
                          eqb (Profile.user_id profile)
                              (user_id (Spread.base e)))
                    (profiles d))
             ps).
Proof.
  split.
  - unfold PostDetail.commentsQueryFn.
    destruct (truthy i); simpl; [|exists []; repeat split; constructor].
    destruct (List.length _ =? 0)%nat eqn:L.
    + apply Nat.eqb_eq, length_zero_iff_nil, distinct_nil, map_eq_nil in L.
      rewrite L; exists []; repeat split; constructor.
    + eexists; split; [reflexivity|].
      rewrite map_map, map_id, length_map; repeat split.
      apply (Forall_map_merge Comment.t Comment.user_id), incl_refl.
  - unfold postsQueryFn; eexists; split; [reflexivity|].
    rewrite map_map, map_id, !length_map; repeat split.
    apply (Forall_map_merge postData user_id), incl_refl.
Qed.

End IndexFacts.

(** ** More on the post form *)

Module CreatePostMore.

Import Js JsFacts Store Async CreatePost CreatePostFacts.

(** *** Saving *)

Lemma truthy_trim_blank (s : str) : truthy (trim s) = negb (isBlank s).
Proof.
  destruct (isBlank s) eqn:B; simpl.
  - apply trim_nil_iff in B; now rewrite B.
  - apply truthy_nonempty; intros E; apply trim_nil_iff in E.
    unfold isBlank in B; congruence.
Qed.

(** X1.  [handleSave] writes only what is valid: with a blank title, a
    blank content or nobody signed in, the store, the form and the
    location stay as they are and one error notification is raised, the
    title being checked before the content and the content before the
    session; otherwise one row is added to the posts table, with the
    title, the content and the status asked for, and the browser is
    sent to the home page. *)
Theorem handleSave_writes_only_valid (st : status) (dateNow newDate : N)
  (new_id : Id) (created : N) (pg : page) :
  let pg' := handleSave st dateNow newDate new_id created pg in
  if isBlank (title (fields pg)) || isBlank (content (fields pg))
     || match user pg with Some _ => false | None => true end
  then remote pg' = remote pg
       /\ fields pg' = fields pg
       /\ location pg' = location pg
       /\ exists t,
            toasts pg' = toasts pg ++ [t]
            /\ Toast.variant t = Toast.destructive
            /\ Toast.title t
               = (if isBlank (title (fields pg)) then lit "Title required"
                  else if isBlank (content (fields pg))
                       then lit "Content required"
                       else lit "Error")
  else exists row,
         posts (remote pg') = posts (remote pg) ++ [row]
         /\ Post.title row = title (fields pg)
         /\ Post.content row = content (fields pg)
         /\ Post.status row = st
         /\ Post.id row = new_id
         /\ location pg' = Some (lit "/")
         /\ fields pg' = fields pg.
Proof.
  intros pg'; subst pg'; unfold handleSave.
  rewrite !truthy_trim_blank, !negb_involutive.
  destruct (isBlank (title (fields pg))); simpl.
  { repeat split; eexists; repeat split. }
  destruct (isBlank (content (fields pg))); simpl.
  { repeat split; eexists; repeat split. }
  destruct (user pg) as [u|]; simpl.
  - eexists; repeat split.
  - repeat split; eexists; repeat split.
Qed.

(** The page a valid save leaves. *)
Lemma handleSave_valid (st : status) (dateNow newDate : N) (new_id : Id)
  (created : N) (pg : page) (u : Auth.user) :
  user pg = Some u ->
  isBlank (title (fields pg)) = false ->
  isBlank (content (fields pg)) = false ->
  handleSave st dateNow newDate new_id created pg
  = {| remote :=
         {| posts :=
              posts (remote pg)
              ++ [toRow new_id created
                    (buildPostData u (fields pg) st dateNow newDate)];
            categories := categories (remote pg);
            profiles := profiles (remote pg);
            comments := comments (remote pg);
            likes := likes (remote pg) |};
       user := user pg; fields := fields pg;
       toasts :=
         toasts pg
         ++ [{| Toast.title :=
                  if status_eqb st published then lit "Post published!"
                  else lit "Draft saved!";
                Toast.description :=
                  Some (if status_eqb st published
                        then lit "Your post is now live and visible to everyone."
                        else lit "Your draft has been saved successfully.");
                Toast.variant := Toast.default |}];
       location := Some (lit "/") |}.
Proof.
  intros Hu Bt Bc; unfold handleSave.
  rewrite !truthy_trim_blank, Bt, Bc; cbn [negb].
  rewrite Hu at 1; reflexivity.
Qed.

(** X2.  Empty optional inputs are never stored as empty strings: the row
    a valid save inserts has the excerpt typed, or else the first 150
    characters of the content, and in both cases a non-empty one; its
    category and its image are null exactly when nothing was chosen or
    typed. *)
Theorem saved_optional_fields (st : status) (dateNow newDate : N)
  (new_id : Id) (created : N) (pg : page) (u : Auth.user) :
  user pg = Some u ->
  isBlank (title (fields pg)) = false ->
  isBlank (content (fields pg)) = false ->
  exists row e,
    posts (remote (handleSave st dateNow newDate new_id created pg))
    = posts (remote pg) ++ [row]
    /\ Post.excerpt row = Some e
    /\ e <> []
    /\ (if truthy (excerpt (fields pg)) then e = excerpt (fields pg)
        else e = firstn 150 (content (fields pg))
             /\ List.length e = Nat.min 150 (List.length (content (fields pg))))
    /\ Post.category_id row <> Some []
    /\ Post.featured_image_url row <> Some []
    /\ (Post.category_id row = None <-> categoryId (fields pg) = [])
    /\ (Post.featured_image_url row = None <-> featuredImage (fields pg) = []).
Proof.
  intros Hu Bt Bc.
  rewrite (handleSave_valid st dateNow newDate new_id created pg u Hu Bt Bc).
  cbn [remote posts].
  exists (toRow new_id created
            (buildPostData u (fields pg) st dateNow newDate)),
         (orElse (excerpt (fields pg)) (substring0 150 (content (fields pg)))).
  split; [reflexivity|]; split; [reflexivity|].
  assert (Hc : content (fields pg) <> []).
  { intros E; rewrite E in Bc; discriminate. }
  cbn [toRow buildPostData Post.category_id Post.featured_image_url
       pd_category_id pd_featured_image_url].
  unfold orElse, substring0, orNull.
  destruct (excerpt (fields pg)) as [|a e]; cbn [truthy];
    destruct (categoryId (fields pg)) as [|b c]; cbn [truthy];
    destruct (featuredImage (fields pg)) as [|b' c']; cbn [truthy];
    repeat split; try discriminate; try reflexivity;
    try apply length_firstn;
    try (destruct (content (fields pg)); [contradiction | discriminate]).
Qed.

Lemma saved_optional_fields_witness :
  exists row,
    posts (remote (handleSave published 1700000000000 1700000000001
                     (lit "p4") 1700000000002 Drafts.page))
    = posts (remote Drafts.page) ++ [row]
    /\ Post.excerpt row = Some (lit "A first post.")
    /\ Post.category_id row = None.
Proof.
  destruct (saved_optional_fields published 1700000000000 1700000000001
              (lit "p4") 1700000000002 Drafts.page Examples.reader
              eq_refl eq_refl eq_refl)
    as (row & e & P & E & _ & X & _ & _ & C & _).
  exists row; split; [exact P|]; split.
  - rewrite E; simpl in X; destruct X as [-> _]; reflexivity.
  - apply C; reflexivity.
Defined.

(** *** The shape of slugs *)

Import SlugSpec SlugShape.

Lemma replaceNonAlnum_slugChars (b : bool) (s : str) :
  forallb slugChar (replaceNonAlnum b s) = true.
Proof.
  revert b; induction s as [|c s IH]; intros b; simpl; [reflexivity|].
  destruct (isLowerAlnum c) eqn:A; simpl.
  - unfold slugChar at 1; rewrite A; simpl; apply IH.
  - destruct b; simpl; apply IH.
Qed.

Lemma noDouble_app (a b : str) :
  noDoubleHyphen (a ++ b) = true ->
  noDoubleHyphen a = true /\ noDoubleHyphen b = true.
Proof.
  induction a as [|c a IH]; simpl; [now split|].
  destruct a as [|c' a]; simpl in *.
  - destruct b; [now split|].
    intros H; apply andb_true_iff in H as [_ H]; now split.
  - intros H; apply andb_true_iff in H as [H1 H2].
    destruct (IH H2) as [Ha Hb]; rewrite H1, Ha; now split.
Qed.

Lemma slugOf_strip (t : str) :
  slugOf t = strip isHyphen (replaceNonAlnum false (toLowerCase t)).
Proof.
  unfold slugOf; rewrite stripEdgeHyphens_trimHyphens; [reflexivity|].
  apply replaceNonAlnum_noDouble.
Qed.

Lemma slugOf_wellShaped (t : str) : wellShaped (slugOf t).
Proof.
  rewrite slugOf_strip.
  set (x := replaceNonAlnum false (toLowerCase t)).
  destruct (strip_split _ isHyphen x) as (pre & suf & E & _ & _).
  pose proof (replaceNonAlnum_slugChars false (toLowerCase t)) as C.
  pose proof (proj1 (replaceNonAlnum_noDouble (toLowerCase t))) as D.
  fold x in C, D; rewrite E in C, D.
  rewrite !forallb_app in C.
  apply andb_true_iff in C as [_ C]; apply andb_true_iff in C as [C _].
  apply noDouble_app in D as [_ D]; apply noDouble_app in D as [D _].
  repeat split; try assumption.
  - intros r H; pose proof (strip_first _ _ _ _ _ H) as F.
    unfold isHyphen, hyphen in F; rewrite Ascii.eqb_refl in F; discriminate.
  - intros r H; pose proof (strip_last _ _ _ _ _ H) as F.
    unfold isHyphen, hyphen in F; rewrite Ascii.eqb_refl in F; discriminate.
Qed.

Lemma isDigit_slugChar (c : ascii) : isDigit c = true -> slugChar c = true.
Proof.
  unfold slugChar, isLowerAlnum, isDigit; intros ->.
  now rewrite orb_true_r.
Qed.

Lemma forallb_impl (A : Type) (p q : A -> bool) (l : list A) :
  (forall x, p x = true -> q x = true) ->
  forallb p l = true -> forallb q l = true.
Proof.
  intros H; induction l as [|x l IH]; simpl; [reflexivity|].
  intros F; apply andb_true_iff in F as [Hx F].
  now rewrite (H x Hx), IH.
Qed.

(** X3.  A slug is safe in a URL path: it is made of lower-case letters,
    digits and hyphens only, and before the time suffix it has no hyphen
    at either end and no two hyphens in a row. *)
Theorem slug_shape (u : Auth.user) (f : form) (st : status)
  (dateNow newDate : N) :
  forallb slugChar (pd_slug (buildPostData u f st dateNow newDate)) = true
  /\ wellShaped (slugOf (title f))
  /\ (2 <= List.length (pd_slug (buildPostData u f st dateNow newDate)))%nat.
Proof.
  destruct (slugOf_wellShaped (title f)) as (C & D & F & L).
  destruct (decimal_digits dateNow) as [NE DG].
  cbn [pd_slug buildPostData]; repeat split; try assumption.
  - rewrite !forallb_app, C; simpl.
    apply (forallb_impl _ isDigit slugChar), DG; apply isDigit_slugChar.
  - rewrite !length_app; simpl.
    destruct (decimal dateNow); [contradiction | simpl; lia].
Qed.

Lemma lowerUnit_slugChar (c : ascii) : slugChar c = true -> lowerUnit c = c.
Proof. destruct c as [[] [] [] [] [] [] [] []]; simpl; easy. Qed.

Lemma slugChar_cases (c : ascii) :
  slugChar c = true -> isLowerAlnum c = false -> c = hyphen.
Proof.
  unfold slugChar; intros H A; rewrite A in H; simpl in H.
  now apply Ascii.eqb_eq.
Qed.

Lemma replaceNonAlnum_fixed (s : str) :
  forallb slugChar s = true -> noDoubleHyphen s = true ->
  replaceNonAlnum false s = s
  /\ ((forall r, s <> hyphen :: r) -> replaceNonAlnum true s = s).
Proof.
  induction s as [|c s IH]; [now split|].
  intros C D; simpl in C; apply andb_true_iff in C as [Cc C].
  destruct (IH C (noDouble_tail _ _ D)) as [IH1 IH2].
  simpl; destruct (isLowerAlnum c) eqn:A.
  - rewrite IH1; now split.
  - pose proof (slugChar_cases c Cc A) as ->.
    assert (T : replaceNonAlnum true s = s).
    { apply IH2; intros r ->; simpl in D; discriminate. }
    rewrite T; split; [reflexivity|].
    intros N; exfalso; exact (N s eq_refl).
Qed.

Lemma stripEdgeHyphens_fixed (s : str) :
  (forall r, s <> hyphen :: r) -> (forall r, s <> r ++ [hyphen]) ->
  stripEdgeHyphens s = s.
Proof.
  intros F L; destruct s as [|c s]; [reflexivity|].
  unfold stripEdgeHyphens.
  destruct (Ascii.eqb c hyphen) eqn:E.
  { apply Ascii.eqb_eq in E; subst c; exfalso; exact (F s eq_refl). }
  unfold dropFinalHyphen; destruct (rev (c :: s)) as [|c' r] eqn:R;
    [reflexivity|].
  destruct (Ascii.eqb c' hyphen) eqn:E'; [|reflexivity].
  apply Ascii.eqb_eq in E'; subst c'.
  apply (f_equal (@rev ascii)) in R; rewrite rev_involutive in R.
  exfalso; exact (L (rev r) R).
Qed.

Lemma slugOf_fixed (s : str) : wellShaped s -> slugOf s = s.
Proof.
  intros (C & D & F & L); unfold slugOf.
  assert (E : toLowerCase s = s).
  { unfold toLowerCase; rewrite <- (map_id s) at 2; apply map_ext_in.
    intros c Hc; apply lowerUnit_slugChar.
    now apply (proj1 (forallb_forall slugChar s) C). }
  rewrite E, (proj1 (replaceNonAlnum_fixed s C D)).
  now apply stripEdgeHyphens_fixed.
Qed.

(** X4.  Making the slug of a slug changes nothing. *)
Theorem slugOf_idempotent (t : str) : slugOf (slugOf t) = slugOf t.
Proof. apply slugOf_fixed, slugOf_wellShaped. Qed.

(** *** Slugs and time *)

Lemma decimal_inj (a b : N) : decimal a = decimal b -> a = b.
Proof.
  unfold decimal; intros H.
  apply (f_equal string_of_list_ascii) in H.
  rewrite !string_of_list_ascii_of_string in H.
  apply (f_equal NilEmpty.uint_of_string) in H.
  rewrite !NilEmpty.usu in H; injection H as H.
  apply (f_equal N.of_uint) in H.
  now rewrite !DecimalN.Unsigned.of_to in H.
Qed.

Lemma first_separator (A : Type) (x : A) (l1 l2 r1 r2 : list A) :
  l1 ++ x :: r1 = l2 ++ x :: r2 -> ~ In x l1 -> ~ In x l2 ->
  l1 = l2 /\ r1 = r2.
Proof.
  revert l2; induction l1 as [|a l1 IH]; intros [|b l2] E N1 N2; simpl in *.
  - injection E as ->; now split.
  - injection E as <- _; exfalso; apply N2; now left.
  - injection E as -> _; exfalso; apply N1; now left.
  - injection E as -> E.
    destruct (IH l2 E) as [-> ->]; [tauto | tauto | now split].
Qed.

Lemma digits_no_hyphen (d : str) : forallb isDigit d = true -> ~ In hyphen d.
Proof.
  intros F H; apply (proj1 (forallb_forall isDigit d) F) in H; discriminate.
Qed.

(** X5.  A slug tells the millisecond and the slugged title it was made
    from: two saves give the same slug only if [Date.now()] was the same
    and the two titles make the same slug; in particular, saving one
    title at two different milliseconds gives two different slugs. *)
Theorem slug_determines_time (u1 u2 : Auth.user) (f1 f2 : form)
  (st1 st2 : status) (now1 now2 date1 date2 : N) :
  pd_slug (buildPostData u1 f1 st1 now1 date1)
  = pd_slug (buildPostData u2 f2 st2 now2 date2) ->
  slugOf (title f1) = slugOf (title f2) /\ now1 = now2.
Proof.
  cbn [pd_slug buildPostData]; intros E.
  apply (f_equal (@rev ascii)) in E.
  rewrite !rev_app_distr in E; simpl in E; rewrite <- !app_assoc in E.
  simpl in E.
  destruct (first_separator ascii hyphen _ _ _ _ E) as [D S].
  - rewrite <- in_rev; apply digits_no_hyphen, decimal_digits.
  - rewrite <- in_rev; apply digits_no_hyphen, decimal_digits.
  - apply (f_equal (@rev ascii)) in D, S; rewrite !rev_involutive in D, S.
    split; [exact S | now apply decimal_inj].
Qed.

Lemma slug_determines_time_witness :
  pd_slug (buildPostData Examples.reader Drafts.hello published 1700 1701)
  = pd_slug (buildPostData Examples.reader Drafts.helloAgain draft 1700 1800)
  /\ slugOf (title Drafts.hello) = slugOf (title Drafts.helloAgain).
Proof.
  assert (E : pd_slug (buildPostData Examples.reader Drafts.hello
                         published 1700 1701)
              = pd_slug (buildPostData Examples.reader Drafts.helloAgain
                           draft 1700 1800)) by reflexivity.
  split; [exact E|].
  exact (proj1 (slug_determines_time _ _ _ _ _ _ _ _ _ _ E)).
Defined.

(** *** Titles without letters or digits *)

Lemma forallb_isHyphen_replace (b : bool) (s : str) :
  forallb isHyphen (replaceNonAlnum b s)
  = forallb (fun c => negb (isLowerAlnum c)) s.
Proof.
  revert b; induction s as [|c s IH]; intros b; simpl; [reflexivity|].
  destruct (isLowerAlnum c) eqn:A; simpl.
  - now rewrite (isLowerAlnum_not_hyphen c A).
  - destruct b; simpl; apply IH.
Qed.

Lemma isLowerAlnum_lowerUnit (c : ascii) :
  isLowerAlnum (lowerUnit c) = isAlnum c.
Proof. destruct c as [[] [] [] [] [] [] [] []]; reflexivity. Qed.

Lemma slugOf_nil_iff (t : str) :
  slugOf t = [] <-> forallb (fun c => negb (isAlnum c)) t = true.
Proof.
  rewrite slugOf_strip.
  etransitivity; [apply strip_nil_iff|].
  rewrite forallb_isHyphen_replace; unfold toLowerCase.
  assert (E : forallb (fun c => negb (isLowerAlnum c)) (map lowerUnit t)
              = forallb (fun c => negb (isAlnum c)) t).
  { induction t as [|c t IH]; simpl; [reflexivity|].
    now rewrite isLowerAlnum_lowerUnit, IH. }
  now rewrite E.
Qed.

(** X6.  Nothing of the title is left in the slug, which is then a
    hyphen followed by the time, exactly when the lower-cased title has no
    character a-z or 0-9; a title that holds a letter A-Z or a-z or a
    digit never gets such a slug. *)
Theorem slug_with_nothing_of_the_title (u : Auth.user) (f : form)
  (st : status) (dateNow newDate : N) :
  (pd_slug (buildPostData u f st dateNow newDate) = lit "-" ++ decimal dateNow
   <-> forallb (fun c => negb (isLowerAlnum c)) (toLowerCase (title f)) = true)
  /\ (existsb isAlnum (title f) = true ->
      pd_slug (buildPostData u f st dateNow newDate)
      <> lit "-" ++ decimal dateNow).
Proof.
  assert (E : pd_slug (buildPostData u f st dateNow newDate)
              = lit "-" ++ decimal dateNow
              <-> slugOf (title f) = []).
  { cbn [pd_slug buildPostData]; split.
    - intros H; change (lit "-" ++ decimal dateNow)
                  with ([] ++ lit "-" ++ decimal dateNow) in H.
      now apply app_inv_tail in H.
    - now intros ->. }
  split.
  - rewrite E, slugOf_strip.
    etransitivity; [apply strip_nil_iff|].
    now rewrite forallb_isHyphen_replace.
  - intros X H; apply E, slugOf_nil_iff in H.
    apply existsb_exists in X as (c & Hc & A).
    apply (proj1 (forallb_forall _ _) H) in Hc.
    rewrite A in Hc; discriminate.
Qed.

(** *** Adding and removing tags *)

Lemma filter_absent (t : str) (ts : list str) :
  ~ In t ts -> filter (fun x => negb (eqb x t)) ts = ts.
Proof.
  induction ts as [|x ts IH]; simpl; [reflexivity|].
  intros N; assert (E : eqb x t = false) by (apply eqb_neq; tauto).
  rewrite E; simpl; rewrite IH; tauto.
Qed.

Lemma addTag_typed (a : str) (f : form) :
  tags (addTag (setNewTag a f))
  = if truthy (trim a) && negb (arrayIncludes (tags f) (trim a))
    then tags f ++ [trim a] else tags f.
Proof.
  unfold addTag; cbn [setNewTag tags newTag].
  now destruct (truthy (trim a) && negb (arrayIncludes (tags f) (trim a))).
Qed.

(** X7.  A tag is added once, whatever white space is typed around it:
    after text [a] has been added, adding a text with the same trimmed
    form changes nothing; and after adding [a] its trimmed form is in the
    list, unless [a] is blank, in which case the list is as before. *)
Theorem tag_added_once (a b : str) (f : form) :
  trim a = trim b ->
  let f1 := addTag (setNewTag a f) in
  let f2 := addTag (setNewTag b f1) in
  tags f2 = tags f1
  /\ (if isBlank a then tags f1 = tags f else In (trim a) (tags f1)).
Proof.
  intros E f1 f2; subst f1 f2.
  rewrite (addTag_typed b), <- E, (addTag_typed a), truthy_trim_blank.
  destruct (isBlank a); cbn [negb andb]; [now split|].
  destruct (arrayIncludes (tags f) (trim a)) eqn:I; cbn [negb].
  - rewrite I; split; [reflexivity | now apply arrayIncludes_In].
  - assert (I' : arrayIncludes (tags f ++ [trim a]) (trim a) = true).
    { apply arrayIncludes_In, in_or_app; right; now left. }
    rewrite I'; split; [reflexivity|].
    apply in_or_app; right; now left.
Qed.

Lemma tag_added_once_witness :
  tags (addTag (setNewTag (lit "news") Drafts.hello)) = [lit "news"]
  /\ tags Drafts.hello = [lit "news"].
Proof.
  pose proof (tag_added_once (lit " news ") (lit "news") emptyForm eq_refl)
    as [H _].
  split; [exact H | reflexivity].
Defined.

(** X8.  Removing undoes adding: when the trimmed form of a text is not in
    the list, removing it changes nothing, and adding the text and then
    removing its trimmed form gives the list back. *)
Theorem tag_add_then_remove (a : str) (f : form) :
  ~ In (trim a) (tags f) ->
  tags (removeTag (trim a) f) = tags f
  /\ tags (removeTag (trim a) (addTag (setNewTag a f))) = tags f.
Proof.
  intros N; unfold removeTag at 1 2; cbn [setTags tags].
  rewrite (addTag_typed a).
  split; [now apply filter_absent|].
  destruct (truthy (trim a) && negb (arrayIncludes (tags f) (trim a))).
  - rewrite filter_app; simpl; rewrite eqb_refl; simpl.
    rewrite app_nil_r; now apply filter_absent.
  - now apply filter_absent.
Qed.

Lemma tag_add_then_remove_witness :
  tags (removeTag (lit "pets")
          (addTag (setNewTag (lit " pets") Drafts.hello)))
  = tags Drafts.hello.
Proof.
  apply (tag_add_then_remove (lit " pets") Drafts.hello).
  simpl; intros [H | []]; discriminate.
Defined.

End CreatePostMore.

(** ** More on the post page *)

Module PostDetailMore.

Import Js JsFacts Store StoreFacts Async PostDetail PostDetailFacts.

(** *** What a click on the heart leaves alone *)

Lemma filter_idem (A : Type) (f : A -> bool) (l : list A) :
  filter f (filter f l) = filter f l.
Proof.
  rewrite filter_filter; apply filter_ext; intros x; now destruct (f x).
Qed.

(** X9.  A click on the heart touches nothing but the clicking user's
    like of the post shown, whatever the page believes about the like:
    posts, categories, profiles and comments, the likes of other users
    and of other posts, the session, the route and the comment box are as
    before; without a user the store is as before and the visitor is
    asked to sign in. *)
Theorem toggleLike_touches_own_like_only (n : Id) (pg : page) :
  let pg' := toggleLike n pg in
  posts (remote pg') = posts (remote pg)
  /\ Store.categories (remote pg') = Store.categories (remote pg)
  /\ profiles (remote pg') = profiles (remote pg)
  /\ Store.comments (remote pg') = Store.comments (remote pg)
  /\ user pg' = user pg /\ id pg' = id pg
  /\ newComment pg' = newComment pg
  /\ match user pg, id pg with
     | Some u, Some i =>
         filter (fun l => negb (likeOf i (Auth.id u) l)) (likes (remote pg'))
         = filter (fun l => negb (likeOf i (Auth.id u) l)) (likes (remote pg))
         /\ toasts pg' = toasts pg
     | Some _, None => remote pg' = remote pg /\ toasts pg' = toasts pg
     | None, _ =>
         remote pg' = remote pg
         /\ toasts pg'
            = toasts pg
              ++ [{| Toast.title := lit "Please sign in to like posts";
                     Toast.description := None;
                     Toast.variant := Toast.destructive |}]
     end.
Proof.
  intros pg'; subst pg'; unfold toggleLike.
  destruct (user pg) as [u|] eqn:Hu; [|now repeat split].
  unfold likeMutationFn.
  destruct (id pg) as [i|] eqn:Hi; [|rewrite ?Hu; now repeat split].
  destruct (truthy i); cbn [negb]; [|rewrite ?Hu, ?Hi; now repeat split].
  destruct (isLiked pg).
  - cbn; rewrite ?Hu, ?Hi; repeat split; apply filter_idem.
  - unfold insert_like.
    destruct (existsb (likeOf i (Auth.id u)) (likes (remote pg))).
    + cbn; rewrite ?Hu, ?Hi; now repeat split.
    + cbn; rewrite ?Hu, ?Hi; repeat split.
      rewrite filter_app; cbn.
      unfold likeOf at 2; cbn; rewrite !eqb_refl; cbn.
      apply app_nil_r.
Qed.

(** *** The heart and its number *)

Lemma likeOf_post (i u : Id) (ls : list Like.t) :
  (List.length (filter (likeOf i u) ls)
   <= List.length (eq_ Like.post_id i ls))%nat.
Proof. rewrite (count_split i u ls); lia. Qed.

(** X10.  The heart is filled exactly when the likes table holds exactly
    one like of the post by the user (with none, or with several, it is
    not), and on a page whose queries have settled a filled heart comes
    with a count of at least one. *)
Theorem filled_heart_means_one_like (d : db) (i : Id) (u : Auth.user) :
  truthy i = true ->
  isLikedQueryFn d (Some i) (Some u)
  = Resolved
      (List.length (filter (likeOf i (Auth.id u)) (likes d)) =? 1)%nat
  /\ (isLiked (mount d (Some i) (Some u)) = true ->
      (1 <= likesCount (mount d (Some i) (Some u)))%N).
Proof.
  intros T.
  assert (Q : isLikedQueryFn d (Some i) (Some u)
              = Resolved
                  (List.length (filter (likeOf i (Auth.id u)) (likes d))
                   =? 1)%nat).
  { unfold isLikedQueryFn; rewrite T; cbn [negb]; rewrite two_filters.
    now destruct (filter (likeOf i (Auth.id u)) (likes d)) as [|x [|y r]]. }
  split; [exact Q|].
  unfold isLiked, likesCount, mount, fetchLike, fetchLikesCount, fetch, hasId,
    hasUser; cbn [likeQ likesCountQ]; rewrite T; cbn [andb Async.data].
  rewrite Q; unfold likesCountQueryFn; rewrite T; cbn [negb].
  intros H; apply Nat.eqb_eq in H.
  pose proof (likeOf_post i (Auth.id u) (likes d)) as L.
  unfold count; lia.
Qed.

Lemma filled_heart_means_one_like_witness :
  isLiked Examples.page = true /\ (1 <= likesCount Examples.page)%N.
Proof.
  pose proof (filled_heart_means_one_like Examples.store (lit "p1")
                Examples.reader eq_refl) as [_ H].
  split; [reflexivity | apply H; reflexivity].
Defined.

(** *** The comment list *)

Lemma commentsQueryFn_base (d : db) (i : Id) :
  truthy i = true ->
  exists cs,
    commentsQueryFn d (Some i) = Resolved cs
    /\ map (@Spread.base _ _) cs = commentRows d i.
Proof.
  intros T; unfold commentsQueryFn; rewrite T; cbn [negb].
  destruct (List.length _ =? 0)%nat eqn:L.
  - apply Nat.eqb_eq, length_zero_iff_nil in L.
    destruct (map Comment.user_id (commentRows d i)) eqn:M; [|discriminate].
    apply map_eq_nil in M; rewrite M; now exists [].
  - eexists; split; [reflexivity|].
    now rewrite map_map, map_id.
Qed.

Lemma comments_mount (d : db) (i : Id) (user : option Auth.user) :
  truthy i = true ->
  commentsQ (mount d (Some i) user) = Settled (commentsQueryFn d (Some i)).
Proof.
  intros T; unfold mount, fetchComments, fetch, hasId; cbn [commentsQ].
  now rewrite T.
Qed.

Lemma Sorted_weaken (A : Type) (R R' : A -> A -> Prop) (l : list A) :
  (forall a b, R a b -> R' a b) -> Sorted R l -> Sorted R' l.
Proof.
  intros H; induction 1 as [|x l S IH Hd]; constructor; [assumption|].
  destruct Hd; constructor; auto.
Qed.

(** X11.  The comment list of a page is the comments of its post, all of
    them and each once, the newest first. *)
Theorem comments_newest_first (d : db) (i : Id) (user : option Auth.user) :
  truthy i = true ->
  exists cs,
    commentsQueryFn d (Some i) = Resolved cs
    /\ comments (mount d (Some i) user) = cs
    /\ Permutation (map (@Spread.base _ _) cs)
         (filter (fun c => eqb (Comment.post_id c) i) (Store.comments d))
    /\ Sorted (fun a b => (Comment.created_at b <= Comment.created_at a)%N)
         (map (@Spread.base _ _) cs).
Proof.
  intros T; destruct (commentsQueryFn_base d i T) as (cs & Q & B).
  exists cs; split; [exact Q|]; split.
  - unfold comments; now rewrite (comments_mount d i user T), Q.
  - rewrite B; unfold commentRows; split.
    + apply IndexFacts.order_desc_perm.
    + eapply Sorted_weaken; [|apply IndexFacts.order_desc_sorted].
      intros a b H; unfold before in H; simpl in H.
      now apply N.leb_le.
Qed.

Lemma comments_newest_first_witness :
  exists c1 c2,
    comments Examples.page = [c1; c2]
    /\ Comment.id (Spread.base c1) = lit "k2"
    /\ Comment.id (Spread.base c2) = lit "k1".
Proof.
  destruct (comments_newest_first Examples.store (lit "p1")
              (Some Examples.reader) eq_refl) as (cs & _ & C & _).
  assert (E : comments Examples.page = cs) by exact C.
  rewrite E; vm_compute in C; rewrite <- C.
  eexists _, _; repeat split.
Defined.

Lemma insert_desc_older (A : Type) (key : A -> option N) (r x : A)
  (l : list A) :
  descb (key r) (key x) = false ->
  insert_desc key r (x :: l) = x :: insert_desc key r l.
Proof. intros H; simpl; now rewrite H. Qed.

(** A row newer than all the others comes first. *)
Lemma order_desc_newest (A : Type) (key : A -> option N) (x : A)
  (l : list A) :
  (forall r, In r l -> descb (key r) (key x) = false) ->
  order_desc key (l ++ [x]) = x :: order_desc key l.
Proof.
  unfold order_desc; induction l as [|r l IH]; intros H; [reflexivity|].
  simpl; rewrite IH by (intros r' Hr'; apply H; now right).
  apply insert_desc_older, H; now left.
Qed.

(** X12.  A comment that has been posted is shown: after a signed-in user
    has posted a text that is not blank, at an instant later than the
    comments the post already has, the refetched comment list is the new
    comment, with the trimmed text, followed by the list as it was, and
    the comment box is empty. *)
Theorem posted_comment_is_shown_first (pg : page) (u : Auth.user) (i n : Id)
  (now : N) :
  user pg = Some u -> id pg = Some i -> truthy i = true ->
  isBlank (newComment pg) = false ->
  (forall c, In c (Store.comments (remote pg)) -> Comment.post_id c = i ->
             (Comment.created_at c < now)%N) ->
  let pg' := handleAddComment n now pg in
  map (@Spread.base _ _) (comments pg')
  = {| Comment.id := n; Comment.post_id := i; Comment.user_id := Auth.id u;
       Comment.content := trim (newComment pg); Comment.created_at := now |}
    :: commentRows (remote pg) i
  /\ newComment pg' = [].
Proof.
  intros Hu Hi T B Old pg'; subst pg'.
  rewrite (handleAddComment_signed_in pg u i n now Hu Hi T B).
  cbv zeta; split; [|reflexivity].
  unfold comments; cbn [commentsQ]; rewrite Hi.
  unfold fetchComments, fetch, hasId; rewrite T.
  set (d' := snd (insert_comment n now i (Auth.id u) (trim (newComment pg))
                    (remote pg))).
  destruct (commentsQueryFn_base d' i T) as (cs & Q & E).
  rewrite Q; cbn [Async.data]; rewrite E.
  unfold commentRows, d', eq_; cbn [insert_comment snd Store.comments].
  rewrite filter_app; cbn [filter Comment.post_id]; rewrite eqb_refl.
  apply order_desc_newest.
  intros c Hc; apply filter_In in Hc as [Hc P]; apply eqb_eq in P.
  cbn; apply N.leb_gt, (Old c Hc P).
Qed.

Lemma posted_comment_is_shown_first_witness :
  exists c rest,
    comments (handleAddComment (lit "k3") 500 Examples.paddedDraft)
    = c :: rest
    /\ Comment.content (Spread.base c) = lit "Lovely!"
    /\ map (@Spread.base _ _) rest = commentRows Examples.store (lit "p1").
Proof.
  assert (Old : forall c,
             In c (Store.comments (remote Examples.paddedDraft)) ->
             Comment.post_id c = lit "p1" ->
             (Comment.created_at c < 500)%N).
  { simpl; intros c [<- | [<- | []]] _; reflexivity. }
  pose proof (posted_comment_is_shown_first Examples.paddedDraft
                Examples.reader (lit "p1") (lit "k3") 500
                eq_refl eq_refl eq_refl eq_refl Old) as [H _].
  destruct (comments (handleAddComment (lit "k3") 500 Examples.paddedDraft))
    as [|c rest]; [discriminate|].
  injection H as Hc Hr.
  exists c, rest; repeat split; [now rewrite Hc | exact Hr].
Defined.







End PostDetailMore.

(** ** Paragraphs *)

Module ParagraphsFacts.

Import Js Paragraphs.

Lemma split_nonempty (sep : ascii) (s : str) : split sep s <> [].
Proof.
  destruct s as [|c s]; simpl; [discriminate|].
  destruct (Ascii.eqb c sep); [discriminate|].
  destruct (split sep s); discriminate.
Qed.

Lemma join_cons (sep c : ascii) (piece : str) (rest : list str) :
  join sep ((c :: piece) :: rest) = c :: join sep (piece :: rest).
Proof. simpl; now destruct rest. Qed.

Lemma join_split (sep : ascii) (s : str) : join sep (split sep s) = s.
Proof.
  induction s as [|c s IH]; [reflexivity|].
  simpl split; destruct (Ascii.eqb c sep) eqn:E.
  - apply Ascii.eqb_eq in E; subst c.
    pose proof (split_nonempty sep s) as N.
    simpl; destruct (split sep s); [contradiction|].
    now rewrite IH.
  - pose proof (split_nonempty sep s) as N.
    destruct (split sep s) as [|piece rest]; [contradiction|].
    now rewrite join_cons, IH.
Qed.

Lemma split_length (sep : ascii) (s : str) :
  List.length (split sep s) = S (occurrences sep s).
Proof.
  unfold occurrences; induction s as [|c s IH]; [reflexivity|].
  simpl; rewrite (Ascii.eqb_sym sep c).
  destruct (Ascii.eqb c sep); simpl; [now rewrite IH|].
  pose proof (split_nonempty sep s) as N.
  destruct (split sep s); [contradiction | exact IH].
Qed.

Lemma split_no_sep (sep : ascii) (s : str) :
  Forall (fun piece => ~ In sep piece) (split sep s).
Proof.
  induction s as [|c s IH]; simpl; [repeat constructor; auto|].
  destruct (Ascii.eqb c sep) eqn:E; [constructor; auto|].
  destruct (split sep s) as [|piece rest]; [repeat constructor|].
  - intros [H | []]; subst; rewrite Ascii.eqb_refl in E; discriminate.
  - inversion_clear IH as [|? ? P R]; constructor; [|exact R].
    intros [H | H]; [|now apply P].
    subst; rewrite Ascii.eqb_refl in E; discriminate.
Qed.

(** X14.  The paragraphs shown for a body are the body: joined by line
    feeds they give it back, there is one more of them than there are
    line feeds in the body (so at least one, and empty ones for empty
    lines), and none contains a line feed. *)
Theorem paragraphs_are_the_content (content : str) :
  join newline (paragraphs content) = content
  /\ List.length (paragraphs content) = S (occurrences newline content)
  /\ Forall (fun piece => ~ In newline piece) (paragraphs content).
Proof.
  unfold paragraphs; split; [apply join_split|].
  split; [apply split_length | apply split_no_sep].
Qed.

End ParagraphsFacts.

(** ** More on the index page *)

Module IndexMore.

Import Js JsFacts Store StoreFacts Async Index IndexFacts.

Lemma postsQueryFn_base (d : db) (q c : str) :
  exists ps,
    postsQueryFn d q c = Resolved ps
    /\ map (@Spread.base _ _) ps = map (select d) (rows d q c).
Proof.
  unfold postsQueryFn; eexists; split; [reflexivity|].
  now rewrite map_map, map_id.
Qed.

Lemma Sorted_select (d : db) (l : list Post.t) :
  Sorted (before Post.published_at) l ->
  Sorted (before published_at) (map (select d) l).
Proof.
  induction 1 as [|p l S IH Hd]; simpl; constructor; [assumption|].
  destruct Hd; simpl; constructor; assumption.
Qed.

Lemma matches_published (q c : str) (p : Post.t) :
  matches q c p = true ->
  Post.status p = published /\ (c = [] \/ Post.category_id p = Some c).
Proof.
  unfold matches; intros H.
  apply andb_true_iff in H as [H Hc]; apply andb_true_iff in H as [Hs _].
  split; [now apply status_eqb_eq|].
  destruct c as [|a c]; [now left | right].
  cbn [truthy] in Hc; destruct (Post.category_id p) as [x|]; [|discriminate].
  apply eqb_eq in Hc; now subst.
Qed.

(** X15.  Whatever is typed into the search box and whichever category is
    picked, pattern characters included, the listing holds rows of
    published posts of the store only, of the picked category if one is
    picked, the later published first (rows without a publish time
    before the others). *)
Theorem listing_holds_published_posts_only (d : db) (q c : str) :
  exists ps,
    postsQueryFn d q c = Resolved ps
    /\ Forall
         (fun v =>
            exists p,
              In p (posts d)
              /\ Spread.base v = select d p
              /\ Post.status p = published
              /\ (c = [] \/ Post.category_id p = Some c))
         ps
    /\ Sorted (before published_at) (map (@Spread.base _ _) ps).
Proof.
  destruct (postsQueryFn_base d q c) as (ps & Q & B).
  exists ps; split; [exact Q|]; split.
  - apply Forall_forall; intros v Hv.
    apply (in_map (@Spread.base _ _)) in Hv; rewrite B in Hv.
    apply in_map_iff in Hv as (p & E & Hp).
    apply rows_In in Hp as [Hp M].
    destruct (matches_published q c p M) as [S C].
    exists p; repeat split; auto.
  - rewrite B; apply Sorted_select, rows_sorted.
Qed.

Lemma literal_plain (q : str) : literal q = true -> plain q = true.
Proof. unfold literal; intros H; now apply andb_true_iff in H. Qed.

(** X16.  With a search text that stands for itself in the filter string
    (none of the pattern characters [%], [_], [\] and [*], no comma, no
    parenthesis, no double quote), the listing holds exactly the published
    posts whose title or content contains the text, letter case ignored,
    within the picked category if one is picked. *)
Theorem listing_of_literal_search (d : db) (q c : str) :
  literal q = true ->
  exists ps l,
    postsQueryFn d q c = Resolved ps
    /\ map (@Spread.base _ _) ps = map (select d) l
    /\ forall p,
         In p l <->
         In p (posts d)
         /\ Post.status p = published
         /\ (q = []
             \/ includes (toLowerCase (Post.title p)) (toLowerCase q) = true
             \/ includes (toLowerCase (Post.content p)) (toLowerCase q) = true)
         /\ (c = [] \/ Post.category_id p = Some c).
Proof.
  intros L; pose proof (literal_plain q L) as P.
  destruct (postsQueryFn_base d q c) as (ps & Q & B).
  exists ps, (rows d q c); split; [exact Q|]; split; [exact B|].
  intros p; now apply rows_plain.
Qed.

Lemma listing_of_literal_search_witness :
  literal (lit "KITTENS") = true
  /\ exists ps,
       postsQueryFn Examples.store (lit "KITTENS") [] = Resolved ps
       /\ map (fun v => id (Spread.base v)) ps = [lit "p1"].
Proof.
  split; [reflexivity|].
  destruct (listing_of_literal_search Examples.store (lit "KITTENS") []
              eq_refl) as (ps & l & Q & _ & _).
  exists ps; split; [exact Q|].
  vm_compute in Q; injection Q as <-; reflexivity.
Defined.

Lemma matches_no_filter (p : Post.t) :
  matches [] [] p = status_eqb (Post.status p) published.
Proof. unfold matches; simpl; now rewrite !andb_true_r. Qed.

(** X17.  With an empty search box and no category picked, every
    published post of the store is listed, once. *)
Theorem listing_without_filters (d : db) :
  exists ps,
    postsQueryFn d [] [] = Resolved ps
    /\ Permutation (map (@Spread.base _ _) ps)
         (map (select d)
            (filter (fun p => status_eqb (Post.status p) published)
               (posts d))).
Proof.
  destruct (postsQueryFn_base d [] []) as (ps & Q & B).
  exists ps; split; [exact Q|].
  rewrite B; apply Permutation_map; unfold rows.
  rewrite order_desc_perm.
  rewrite (filter_ext _ _ matches_no_filter); reflexivity.
Qed.

(** X18.  Once the posts query has settled the index page shows one card
    for each row of the listing, in order and linked to the post's page,
    and every card shows 0 likes and 0 comments whatever the store holds,
    since the page hands the card no counts; with no row it shows the
    hint for a filtered or for an unfiltered listing. *)
Theorem index_cards (d : db) (q c : str) :
  match IndexPage.show d q c with
  | IndexPage.Placeholders _ => False
  | IndexPage.NoPosts hint =>
      rows d q c = []
      /\ hint = (if truthy q || truthy c
                 then lit "Try adjusting your search or filter criteria."
                 else lit "Be the first to create a post!")
  | IndexPage.Grid cards =>
      map BlogCard.link cards
      = map (fun p => lit "/post/" ++ Post.id p) (rows d q c)
      /\ Forall (fun k => BlogCard.hearts k = 0%N /\ BlogCard.bubbles k = 0%N)
           cards
  end.
Proof.
  destruct (postsQueryFn_base d q c) as (ps & Q & B).
  unfold IndexPage.show, IndexPage.render; rewrite Q; cbn [isLoading Async.data].
  destruct (List.length ps =? 0)%nat eqn:L.
  - apply Nat.eqb_eq, length_zero_iff_nil in L; subst ps.
    symmetry in B; apply map_eq_nil in B; now split.
  - split.
    + rewrite map_map.
      change (map (fun x => BlogCard.link (BlogCard.render (IndexPage.cardProps x))) ps)
        with (map (fun x => lit "/post/" ++ id (Spread.base x)) ps).
      rewrite <- (map_map (@Spread.base _ _)
                    (fun b => lit "/post/" ++ id b)), B.
      now rewrite map_map.
    + apply Forall_forall; intros k Hk.
      apply in_map_iff in Hk as (v & <- & _); now split.
Qed.

(** X19.  The author named on a card of the listing is the display name
    of the author's first profile row when there is one and it is not
    empty, and "Anonymous" otherwise: without a profile row, with a null
    name, with an empty name. *)
Theorem index_card_authors (d : db) (q c : str) :
  exists ps,
    postsQueryFn d q c = Resolved ps
    /\ Forall
         (fun v =>
            BlogCard.author (BlogCard.render (IndexPage.cardProps v))
            = match
                find (fun profile =>
                        eqb (Profile.user_id profile)
                            (user_id (Spread.base v)))
                  (profiles d)
              with
              | Some profile =>
                  match Profile.display_name profile with
                  | Some n => if truthy n then n else lit "Anonymous"
                  | None => lit "Anonymous"
                  end
              | None => lit "Anonymous"
              end)
         ps.
Proof.
  unfold postsQueryFn; eexists; split; [reflexivity|].
  pose proof (Forall_map_merge postData user_id d
                (map (select d) (rows d q c))
                (map (select d) (rows d q c)) (incl_refl _)) as F.
  eapply Forall_impl; [|exact F].
  intros v E; cbn [BlogCard.author BlogCard.render IndexPage.cardProps
                   BlogCard.authorName].
  unfold authorName; now rewrite E.
Qed.

End IndexMore.

(** ** Cards *)

Module BlogCardFacts.

Import Js BlogCard.

(** X20.  A card accounts for every tag: it shows the first three tags at
    most, in order, and when there are more it says how many more, so
    that the tags shown and the number announced add up to the number of
    tags; with three tags or fewer it shows them all and announces
    nothing. *)
Theorem card_tags_add_up (p : props) :
  let ts := match tags p with Some ts => ts | None => [] end in
  tagBadges (render p) = firstn 3 ts
  /\ (List.length (tagBadges (render p)) <= 3)%nat
  /\ match moreBadge (render p) with
     | Some n =>
         (3 < List.length ts)%nat
         /\ (List.length (tagBadges (render p)) + n = List.length ts)%nat
     | None => tagBadges (render p) = ts
     end.
Proof.
  intros ts; unfold render; fold ts; cbn [tagBadges moreBadge].
  assert (E : (if (0 <? List.length ts)%nat then firstn 3 ts else [])
              = firstn 3 ts).
  { destruct ts; reflexivity. }
  rewrite E; split; [reflexivity|]; split.
  - rewrite length_firstn; lia.
  - destruct (0 <? List.length ts)%nat eqn:Z, (3 <? List.length ts)%nat eqn:T;
      cbn [andb].
    + apply Nat.ltb_lt in T; rewrite length_firstn; split; lia.
    + apply Nat.ltb_ge in T; apply firstn_all2; exact T.
    + apply Nat.ltb_ge in Z; apply Nat.ltb_lt in T; lia.
    + apply Nat.ltb_ge in T; apply firstn_all2; exact T.
Qed.

End BlogCardFacts.
